(** * MCP patch engine (src/mcp/server.ts): a shallow embedding

    Strings are Stdlib [string]s, read as sequences of UTF-16 code units
    restricted to the range 0..255 (Latin-1); the JavaScript string
    operations the engine uses ([startsWith], [includes], [split],
    [join], [replace], [trim], [toLowerCase], [slice]) and the posix
    [node:path] functions ([resolve], [normalize], [dirname]) are written
    out below. The filesystem is a finite map from absolute paths to file
    contents plus a set of directories, threaded through a small
    error-and-state monad. *)

From Stdlib Require Import String Ascii ZArith List Bool.
From stdpp Require Import base gmap strings list.
Import ListNotations.
Open Scope string_scope.

(* ================================================================= *)
(** ** JavaScript string operations *)

Definition ch_nl : ascii := "010"%char.
Definition ch_cr : ascii := "013"%char.
Definition ch_slash : ascii := "/"%char.

(** One-character strings; [dq] is the double quote. *)
Definition str1 (c : ascii) : string := String c EmptyString.
Definition nl : string := str1 ch_nl.
Definition dq : string := str1 "034"%char.

(** [s.startsWith(p)] *)
Definition starts_with (p s : string) : bool := String.prefix p s.

(** [s.includes(p)] *)
Fixpoint includes (p s : string) : bool :=
  String.prefix p s ||
  match s with
  | EmptyString => false
  | String _ r => includes p r
  end.

(** [s.replace(/\r\n/g, "\n")]: left-to-right, non-overlapping. *)
Fixpoint replace_crlf (s : string) : string :=
  match s with
  | EmptyString => EmptyString
  | String c r =>
      if Ascii.eqb c ch_cr then
        match r with
        | String c2 r2 =>
            if Ascii.eqb c2 ch_nl then String ch_nl (replace_crlf r2)
            else String c (replace_crlf r)
        | EmptyString => String c EmptyString
        end
      else String c (replace_crlf r)
  end.

(** [s.split(sep)] for a one-character separator: [""] splits to [[""]]. *)
Fixpoint split_on (sep : ascii) (s : string) : list string :=
  match s with
  | EmptyString => [EmptyString]
  | String c r =>
      let rest := split_on sep r in
      if Ascii.eqb c sep then EmptyString :: rest
      else match rest with
           | h :: t => String c h :: t
           | [] => [str1 c]
           end
  end.

(** [xs.join(sep)] *)
Fixpoint join_with (sep : string) (xs : list string) : string :=
  match xs with
  | [] => EmptyString
  | [x] => x
  | x :: t => x ++ sep ++ join_with sep t
  end.

Definition split_nl (s : string) : list string := split_on ch_nl s.
Definition join_nl (xs : list string) : string := join_with nl xs.

(** [s.slice(1)] *)
Definition slice1 (s : string) : string :=
  match s with
  | EmptyString => EmptyString
  | String _ r => r
  end.

(** [s.replace(p, rep)] with a string pattern: first occurrence only. *)
Fixpoint replace_first (p rep s : string) : string :=
  if String.prefix p s then rep ++ String.substring (String.length p) (String.length s) s
  else match s with
       | EmptyString => EmptyString
       | String c r => String c (replace_first p rep r)
       end.

(** JavaScript white space within Latin-1: TAB, LF, VT, FF, CR, SPACE, NBSP. *)
Definition is_ws (c : ascii) : bool :=
  let n := nat_of_ascii c in
  (Nat.leb 9 n && Nat.leb n 13) || Nat.eqb n 32 || Nat.eqb n 160.

Fixpoint trim_start (s : string) : string :=
  match s with
  | EmptyString => EmptyString
  | String c r => if is_ws c then trim_start r else s
  end.

Fixpoint trim_end (s : string) : string :=
  match s with
  | EmptyString => EmptyString
  | String c r =>
      let r' := trim_end r in
      if is_ws c && String.eqb r' EmptyString then EmptyString else String c r'
  end.

(** [s.trim()] *)
Definition trim (s : string) : string := trim_end (trim_start s).

(** [c.toLowerCase()] on Latin-1: A-Z and U+00C0..U+00DE except U+00D7. *)
Definition lower_char (c : ascii) : ascii :=
  let n := nat_of_ascii c in
  if (Nat.leb 65 n && Nat.leb n 90) || (Nat.leb 192 n && Nat.leb n 222 && negb (Nat.eqb n 215))
  then ascii_of_nat (n + 32)%nat else c.

(** [s.toLowerCase()] *)
Fixpoint to_lower (s : string) : string :=
  match s with
  | EmptyString => EmptyString
  | String c r => String (lower_char c) (to_lower r)
  end.

(* ================================================================= *)
(** ** [node:path], posix flavour *)

Definition is_abs (p : string) : bool :=
  match p with
  | String c _ => Ascii.eqb c ch_slash
  | EmptyString => false
  end.

(** The segment loop of Node's [normalizeString]; [acc] holds the
    segments kept so far, last one first. *)
Fixpoint norm_segs (allow_above : bool) (acc : list string) (segs : list string)
  : list string :=
  match segs with
  | [] => acc
  | s :: rest =>
      if String.eqb s "" || String.eqb s "." then norm_segs allow_above acc rest
      else if String.eqb s ".." then
        match acc with
        | x :: acc' =>
            if String.eqb x ".." then
              norm_segs allow_above (if allow_above then ".." :: acc else acc) rest
            else norm_segs allow_above acc' rest
        | [] => norm_segs allow_above (if allow_above then [".."] else []) rest
        end
      else norm_segs allow_above (s :: acc) rest
  end.

(** [normalizeString(path, allowAboveRoot, "/")] *)
Definition normalize_string (p : string) (allow_above : bool) : string :=
  join_with "/" (rev (norm_segs allow_above [] (split_on ch_slash p))).

Definition ends_with_slash (p : string) : bool :=
  match rev (list_ascii_of_string p) with
  | c :: _ => Ascii.eqb c ch_slash
  | [] => false
  end.

(** [path.normalize(p)] *)
Definition normalize (p : string) : string :=
  if String.eqb p "" then "." else
  let absolute := is_abs p in
  let trailing := ends_with_slash p in
  let s := normalize_string p (negb absolute) in
  if String.eqb s "" then (if absolute then "/" else if trailing then "./" else ".")
  else
    let s := if trailing then s ++ "/" else s in
    if absolute then "/" ++ s else s.

(** The right-to-left loop of [path.resolve]: prepend arguments until an
    absolute one is met; the boolean says whether one was. *)
Fixpoint resolve_go (rev_args : list string) (acc : string) : string * bool :=
  match rev_args with
  | [] => (acc, false)
  | p :: rest =>
      if String.eqb p "" then resolve_go rest acc
      else
        let acc' := p ++ "/" ++ acc in
        if is_abs p then (acc', true) else resolve_go rest acc'
  end.

(** [path.resolve(...args)] in a process whose working directory is [cwd]. *)
Definition resolve (cwd : string) (args : list string) : string :=
  let '(acc, absolute) := resolve_go (rev args) "" in
  let '(acc, absolute) :=
    if absolute then (acc, true)
    else if String.eqb cwd "" then (acc, false)
    else (cwd ++ "/" ++ acc, is_abs cwd) in
  let s := normalize_string acc (negb absolute) in
  if absolute then "/" ++ s
  else if String.eqb s "" then "." else s.

(** The backwards scan of [path.dirname] over the characters at indices
    [len-1] down to [1]: skip trailing slashes, then the last segment, and
    return what precedes the slash found (still reversed). *)
Fixpoint dirname_scan (matched_slash : bool) (r : list ascii) : option (list ascii) :=
  match r with
  | [] => None
  | c :: r' =>
      if Ascii.eqb c ch_slash then
        (if matched_slash then dirname_scan true r' else Some r')
      else dirname_scan false r'
  end.

(** [path.dirname(p)] *)
Definition dirname (p : string) : string :=
  match list_ascii_of_string p with
  | [] => "."
  | c0 :: cs =>
      let has_root := Ascii.eqb c0 ch_slash in
      match dirname_scan true (rev cs) with
      | None => if has_root then "/" else "."
      | Some [] => if has_root then "//" else str1 c0
      | Some pre => string_of_list_ascii (c0 :: rev pre)
      end
  end.

Example resolve_ex1 : resolve "/cwd" ["/a/b"; "../outside"] = "/a/outside".
Proof. reflexivity. Qed.
Example resolve_ex2 : resolve "/cwd" ["/a/b"; "x/./y/"] = "/a/b/x/y".
Proof. reflexivity. Qed.
Example resolve_ex3 : resolve "/cwd" ["rel"] = "/cwd/rel".
Proof. reflexivity. Qed.
Example resolve_ex4 : resolve "/cwd" ["/a"; "../../.."] = "/".
Proof. reflexivity. Qed.
Example normalize_ex : normalize "/a//b/../c/" = "/a/c/".
Proof. reflexivity. Qed.
Example dirname_ex1 : dirname "/a/b/c" = "/a/b".
Proof. reflexivity. Qed.
Example dirname_ex2 : dirname "/a" = "/".
Proof. reflexivity. Qed.
Example dirname_ex3 : dirname "/a/b//" = "/a".
Proof. reflexivity. Qed.
Example split_ex : split_nl ("one" ++ nl ++ "two" ++ nl) = ["one"; "two"; ""].
Proof. reflexivity. Qed.
Example trim_ex : trim "  a b  " = "a b".
Proof. reflexivity. Qed.

(* ================================================================= *)
(** ** Patch types (interfaces [PatchHunkLine], [PatchHunk], [ParsedPatch]) *)

Inductive line_type := LContext | LAdd | LRemove.

Record hunk_line := mk_hline { hl_type : line_type; hl_text : string }.

(** [{ start: number; count: number }]; the numbers come from [\d+]
    groups, read here as exact integers. *)
Record range := mk_range { r_start : Z; r_count : Z }.

Record hunk := mk_hunk { oldRange : range; newRange : range; h_lines : list hunk_line }.

Inductive op_kind := OpAdd | OpUpdate | OpDelete.

Definition op_name (o : op_kind) : string :=
  match o with OpAdd => "add" | OpUpdate => "update" | OpDelete => "delete" end.

Record parsed_patch := mk_patch {
  pp_op : op_kind;
  pp_path : string;
  pp_newContent : option string;
  pp_hunks : list hunk
}.

(* ================================================================= *)
(** ** The hunk header regex [/^@@ -(\d+),(\d+) \+(\d+),(\d+) @@/] *)

Definition is_digit (c : ascii) : bool :=
  let n := nat_of_ascii c in Nat.leb 48 n && Nat.leb n 57.

(** A maximal run of digits and what follows it; [\d+] is greedy and the
    next token of the regex is never a digit, so no backtracking can
    succeed with a shorter run. *)
Fixpoint take_digits (s : string) : string * string :=
  match s with
  | String c r =>
      if is_digit c then let '(d, rest) := take_digits r in (String c d, rest)
      else (EmptyString, s)
  | EmptyString => (EmptyString, EmptyString)
  end.

(** [Number(d)] for a string of decimal digits. *)
Fixpoint digits_value_acc (acc : Z) (d : string) : Z :=
  match d with
  | EmptyString => acc
  | String c r => digits_value_acc (10 * acc + Z.of_nat (nat_of_ascii c - 48)) r
  end.
Definition digits_value (d : string) : Z := digits_value_acc 0 d.

Definition expect (p s : string) : option string :=
  if String.prefix p s then Some (String.substring (String.length p) (String.length s) s)
  else None.

Definition number_tok (s : string) : option (Z * string) :=
  let '(d, r) := take_digits s in
  if String.eqb d "" then None else Some (digits_value d, r).

(** [line.match(hunkHeader)], returning the four captured numbers. *)
Definition match_hunk_header (line : string) : option (Z * Z * Z * Z) :=
  r ← expect "@@ -" line;
  '(a, r) ← number_tok r;
  r ← expect "," r;
  '(b, r) ← number_tok r;
  r ← expect " +" r;
  '(c, r) ← number_tok r;
  r ← expect "," r;
  '(d, r) ← number_tok r;
  _ ← expect " @@" r;
  Some (a, b, c, d).

Example match_hunk_header_ex : match_hunk_header "@@ -2,1 +12,30 @@ tail" = Some (2, 1, 12, 30)%Z.
Proof. reflexivity. Qed.

(* ================================================================= *)
(** ** [parseSimplifiedPatch] *)

Definition msg_missing_begin : string := "Patch missing *** Begin Patch".
Definition msg_missing_header : string := "Patch must contain one of Add/Update/Delete headers".

(** The header loop: the first line starting with one of the three
    headers decides [op] and [filePath], then [break]. *)
Fixpoint find_header (lines : list string) : option (op_kind * string) :=
  match lines with
  | [] => None
  | l :: rest =>
      if starts_with "*** Add File:" l then Some (OpAdd, trim (replace_first "*** Add File:" "" l))
      else if starts_with "*** Update File:" l then Some (OpUpdate, trim (replace_first "*** Update File:" "" l))
      else if starts_with "*** Delete File:" l then Some (OpDelete, trim (replace_first "*** Delete File:" "" l))
      else find_header rest
  end.

(** [l.startsWith("+") && !l.startsWith("+++")] *)
Definition is_add_line (l : string) : bool :=
  starts_with "+" l && negb (starts_with "+++" l).

(** [contentLines] of the Add branch. *)
Definition add_content_lines (lines : list string) : list string :=
  map slice1 (List.filter is_add_line lines).

(** [contentLines.join("\n") + (contentLines.length ? "\n" : "")] *)
Definition add_content (lines : list string) : string :=
  let cl := add_content_lines lines in
  join_nl cl ++ (match cl with [] => "" | _ => nl end).

(** The classification of a line inside a hunk. *)
Definition classify_line (line : string) : option hunk_line :=
  if starts_with "+" line && negb (starts_with "+++" line) then Some (mk_hline LAdd (slice1 line))
  else if starts_with "-" line && negb (starts_with "---" line) then Some (mk_hline LRemove (slice1 line))
  else if negb (starts_with "***" line) && negb (starts_with "@@" line) then Some (mk_hline LContext line)
  else None.

(** The hunk loop, with [current] and the [hunks] pushed so far. *)
Fixpoint collect_hunks (lines : list string) (current : option hunk) (hunks : list hunk)
  : list hunk :=
  match lines with
  | [] => match current with Some h => (hunks ++ [h])%list | None => hunks end
  | line :: rest =>
      match match_hunk_header line with
      | Some (a, b, c, d) =>
          let hunks' := match current with Some h => (hunks ++ [h])%list | None => hunks end in
          collect_hunks rest (Some (mk_hunk (mk_range a b) (mk_range c d) [])) hunks'
      | None =>
          match current with
          | Some h =>
              match classify_line line with
              | Some ln =>
                  collect_hunks rest (Some (mk_hunk (oldRange h) (newRange h) (h_lines h ++ [ln])%list)) hunks
              | None => collect_hunks rest current hunks
              end
          | None => collect_hunks rest current hunks
          end
      end
  end.

(** [lines[0]?.includes("*** Begin Patch")] *)
Definition has_begin_marker (lines : list string) : bool :=
  match lines with
  | l :: _ => includes "*** Begin Patch" l
  | [] => false
  end.

(** [parseSimplifiedPatch(raw)]: [inl] is a thrown [Error] message. *)
Definition parseSimplifiedPatch (raw : string) : string + parsed_patch :=
  let lines := split_nl (replace_crlf raw) in
  if negb (has_begin_marker lines) then inl msg_missing_begin else
  match find_header lines with
  | None => inl msg_missing_header
  | Some (op, filePath) =>
      if String.eqb filePath "" then inl msg_missing_header else
      match op with
      | OpDelete => inr (mk_patch OpDelete filePath None [])
      | OpAdd => inr (mk_patch OpAdd filePath (Some (add_content lines)) [])
      | OpUpdate => inr (mk_patch OpUpdate filePath None (collect_hunks lines None []))
      end
  end.

(* ================================================================= *)
(** ** The filesystem and the effects of [node:fs/promises] *)

(** Files by absolute path, the existing directories, and the paths the
    process may not modify (writing or unlinking them fails with
    [EACCES]). *)
Record FS := mk_fs {
  fs_files : gmap string string;
  fs_dirs : gset string;
  fs_denied : gset string
}.

(** Code that may throw and touches the filesystem: the state after a
    failure keeps the effects performed before it. *)
Definition M (A : Type) : Type := FS -> (string + A) * FS.

Definition ret {A} (a : A) : M A := fun s => (inr a, s).
Definition throw {A} (e : string) : M A := fun s => (inl e, s).
Definition bind {A B} (m : M A) (k : A -> M B) : M B :=
  fun s => match m s with
           | (inr a, s') => k a s'
           | (inl e, s') => (inl e, s')
           end.
(** [try { m } catch (e) { h(e) }] *)
Definition catch {A} (m : M A) (h : string -> M A) : M A :=
  fun s => match m s with
           | (inl e, s') => h e s'
           | r => r
           end.
(** A synchronous throw lifted into [M]. *)
Definition lift {A} (r : string + A) : M A :=
  match r with inl e => throw e | inr a => ret a end.

Notation "x <- m ;; k" := (bind m (fun x => k))
  (at level 95, m at next level, right associativity).
Notation "m ;;; k" := (bind m (fun _ => k)) (at level 95, right associativity).

Definition sq : string := str1 "039"%char.

(** The message of a Node system error: [CODE: text, syscall 'path']. *)
Definition sys_err (code text syscall p : string) : string :=
  code ++ ": " ++ text ++ ", " ++ syscall ++ " " ++ sq ++ p ++ sq.

(** [fs.readFile(p, "utf8")] *)
Definition fs_readFile (p : string) : M string :=
  fun s => match fs_files s !! p with
           | Some c => (inr c, s)
           | None =>
               if decide (p ∈ fs_dirs s)
               then (inl (sys_err "EISDIR" "illegal operation on a directory" "read" p), s)
               else (inl (sys_err "ENOENT" "no such file or directory" "open" p), s)
           end.

(** [fs.writeFile(p, c, "utf8")]: creates or truncates and overwrites.
    Only the failures detected when the file is opened are modelled; a
    failure during the write itself (ENOSPC, EIO), which would leave a
    truncated file, is not. *)
Definition fs_writeFile (p c : string) : M unit :=
  fun s =>
    if decide (p ∈ fs_dirs s)
    then (inl (sys_err "EISDIR" "illegal operation on a directory" "open" p), s)
    else if decide (dirname p ∉ fs_dirs s)
    then (inl (sys_err "ENOENT" "no such file or directory" "open" p), s)
    else if decide (p ∈ fs_denied s)
    then (inl (sys_err "EACCES" "permission denied" "open" p), s)
    else (inr tt, mk_fs (<[p := c]> (fs_files s)) (fs_dirs s) (fs_denied s)).

(** [fs.unlink(p)] *)
Definition fs_unlink (p : string) : M unit :=
  fun s =>
    if decide (p ∈ fs_dirs s)
    then (inl (sys_err "EISDIR" "illegal operation on a directory" "unlink" p), s)
    else match fs_files s !! p with
         | None => (inl (sys_err "ENOENT" "no such file or directory" "unlink" p), s)
         | Some _ =>
             if decide (p ∈ fs_denied s)
             then (inl (sys_err "EACCES" "permission denied" "unlink" p), s)
             else (inr tt, mk_fs (delete p (fs_files s)) (fs_dirs s) (fs_denied s))
         end.

(** The directories [fs.mkdir(d, { recursive: true })] makes sure of, from
    the root down, for an absolute [d]. *)
Definition ancestors (d : string) : list string :=
  let segs := List.filter (fun x => negb (String.eqb x "")) (split_on ch_slash d) in
  map (fun k => "/" ++ join_with "/" (firstn k segs)) (seq 0 (S (length segs))).

Fixpoint mkdir_chain (ds : list string) : M unit :=
  match ds with
  | [] => ret tt
  | a :: rest =>
      fun s =>
        if decide (is_Some (fs_files s !! a))
        then (inl (sys_err "ENOTDIR" "not a directory" "mkdir" a), s)
        else mkdir_chain rest (mk_fs (fs_files s) ({[a]} ∪ fs_dirs s) (fs_denied s))
  end.

(** [fs.mkdir(d, { recursive: true })] *)
Definition fs_mkdir_p (d : string) : M unit := mkdir_chain (ancestors d).

(* ================================================================= *)
(** ** [withinRoot], [applyParsedPatch], [rewriteFile] *)

(** [withinRoot(getRoot, relPath)], with [root] the value [getRoot()]
    returns at this call and [cwd] the process working directory. *)
Definition withinRoot (cwd root relPath : string) : string + string :=
  let ROOT := resolve cwd [root] in
  let rel := if String.eqb (trim relPath) "" then "." else relPath in
  let abs := resolve cwd [ROOT; rel] in
  let rootNorm := to_lower (normalize ROOT) in
  let absNorm := to_lower (normalize abs) in
  if negb (starts_with rootNorm absNorm) then
    inl ("Refusing to write outside root. rel=" ++ dq ++ relPath ++ dq ++
         ", root=" ++ dq ++ ROOT ++ dq)
  else inr abs.

(** The replacement block: texts of the add and context lines. *)
Definition replacement (h : hunk) : list string :=
  map hl_text (List.filter (fun ln => match hl_type ln with LAdd | LContext => true | LRemove => false end)
                      (h_lines h)).

(** [Array.prototype.splice(start, deleteCount, ...items)], returning the
    array after the call. *)
Definition js_splice (l : list string) (start del : Z) (items : list string) : list string :=
  let len := Z.of_nat (length l) in
  let actualStart := if (start <? 0)%Z then Z.max (len + start) 0 else Z.min start len in
  let dc := Z.min (Z.max del 0) (len - actualStart) in
  (firstn (Z.to_nat actualStart) l ++ items ++ skipn (Z.to_nat (actualStart + dc)) l)%list.

(** The hunk loop of the update branch. *)
Definition apply_hunk (lines : list string) (h : hunk) : list string :=
  js_splice lines (r_start (oldRange h) - 1) (r_count (oldRange h)) (replacement h).

Definition apply_hunks (lines : list string) (hs : list hunk) : list string :=
  fold_left apply_hunk hs lines.

(** [applyParsedPatch(getRoot, parsed)] *)
Definition applyParsedPatch (cwd root : string) (parsed : parsed_patch) : M unit :=
  abs <- lift (withinRoot cwd root (pp_path parsed)) ;;
  match pp_op parsed with
  | OpDelete => catch (fs_unlink abs) (fun _ => ret tt)
  | OpAdd =>
      fs_mkdir_p (dirname abs) ;;;
      fs_writeFile abs (match pp_newContent parsed with Some c => c | None => "" end)
  | OpUpdate =>
      original <- catch (fs_readFile abs)
                    (fun _ => throw ("File not found for update: " ++ pp_path parsed)) ;;
      let lines := split_nl (replace_crlf original) in
      let lines := apply_hunks lines (pp_hunks parsed) in
      fs_writeFile abs (join_nl lines ++ nl)
  end.

(** [rewriteFile(getRoot, pathRel, content)] *)
Definition rewriteFile (cwd root pathRel content : string) : M unit :=
  abs <- lift (withinRoot cwd root pathRel) ;;
  fs_mkdir_p (dirname abs) ;;;
  fs_writeFile abs content.

(* ================================================================= *)
(** ** The HTTP façade ([attachMCPToServer]) *)

(** A field of the JSON request body after [JSON.parse]; an absent field
    is [JUndefined]. Numbers are integer-valued here. *)
Inductive jsval := JUndefined | JNull | JBool (b : bool) | JNum (z : Z) | JStr (s : string).

Definition truthy (v : jsval) : bool :=
  match v with
  | JUndefined | JNull => false
  | JBool b => b
  | JNum z => negb (Z.eqb z 0)
  | JStr s => negb (String.eqb s "")
  end.

Fixpoint pos_digits (fuel : nat) (n : N) (acc : string) : string :=
  match fuel with
  | O => acc
  | S f =>
      let acc' := String (ascii_of_N (48 + N.modulo n 10)) acc in
      if N.ltb n 10 then acc' else pos_digits f (N.div n 10) acc'
  end.

(** [String(v)]. A number is rendered as its decimal digits, which is
    what [String] prints for the integer values of magnitude below 10^21;
    larger numbers (exponent form) and non-integers are not modelled. *)
Definition js_String (v : jsval) : string :=
  match v with
  | JUndefined => "undefined"
  | JNull => "null"
  | JBool b => if b then "true" else "false"
  | JNum z =>
      let n := Z.abs_N z in
      (if (z <? 0)%Z then "-" else "") ++ pos_digits (S (N.size_nat n)) n ""
  | JStr s => s
  end.

(** The JSON response: [{ok: true, path, op}] or [{error: message}]. *)
Inductive response := RespOk (path op : string) | RespErr (msg : string).

(** [POST /mcp/apply_patch] with body field [patch]. *)
Definition apply_patch_request (cwd root : string) (patch : jsval) (s : FS) : response * FS :=
  match parseSimplifiedPatch (js_String (if truthy patch then patch else JStr "")) with
  | inl e => (RespErr e, s)
  | inr parsed =>
      match applyParsedPatch cwd root parsed s with
      | (inr _, s') => (RespOk (pp_path parsed) (op_name (pp_op parsed)), s')
      | (inl e, s') => (RespErr e, s')
      end
  end.

Definition msg_bad_rewrite_path : string := "Missing or invalid 'path' for rewrite_file".

(** [POST /mcp/rewrite_file] with body fields [path] and [content]. *)
Definition rewrite_file_request (cwd root : string) (path content : jsval) (s : FS)
  : response * FS :=
  match path with
  | JStr relPath =>
      if String.eqb (trim relPath) "" then (RespErr msg_bad_rewrite_path, s) else
      let c := match content with JStr c => c | _ => "" end in
      match rewriteFile cwd root relPath c s with
      | (inr _, s') => (RespOk relPath "rewrite", s')
      | (inl e, s') => (RespErr e, s')
      end
  | _ => (RespErr msg_bad_rewrite_path, s)
  end.

(* ================================================================= *)
(** ** The end-to-end scenario of the spec *)

Definition ws_fs : FS :=
  mk_fs {[ "/ws/a.txt" := "one" ++ nl ++ "two" ++ nl ++ "three" ++ nl ]} {[ "/"; "/ws" ]} ∅.

Definition e2e_patch : string :=
  join_nl ["*** Begin Patch"; "*** Update File: a.txt"; "@@ -2,1 +2,1 @@"; "-two"; "+TWO";
           "*** End Patch"].

Definition e2e_expected : string := "one" ++ nl ++ "TWO" ++ nl ++ "three" ++ nl.

(* ================================================================= *)
(** ** Helper lemmas *)

Lemma bind_inr {A B} (m : M A) (k : A -> M B) s a s' :
  m s = (inr a, s') -> bind m k s = k a s'.
Proof. intros H. unfold bind. rewrite H. reflexivity. Qed.

Lemma bind_inl {A B} (m : M A) (k : A -> M B) s e s' :
  m s = (inl e, s') -> bind m k s = (inl e, s').
Proof. intros H. unfold bind. rewrite H. reflexivity. Qed.

Lemma lift_inr {A} (a : A) s : lift (inr a) s = (inr a, s).
Proof. reflexivity. Qed.

Lemma js_String_patch_str (raw : string) :
  js_String (if truthy (JStr raw) then JStr raw else JStr "") = raw.
Proof. destruct raw; reflexivity. Qed.

(* ================================================================= *)
(** ** Root containment *)

(** C1 (code_bug): with root [/a/b], the relative path [../bc/evil]
    resolves to the sibling [/a/bc/evil], which is not under the root,
    yet [withinRoot] accepts it because it compares lowercased strings by
    prefix; [../outside] is rejected. *)
Theorem C1_sibling_prefix_accepted (cwd : string) :
  withinRoot cwd "/a/b" "../bc/evil" = inr "/a/bc/evil" /\
  (exists msg, withinRoot cwd "/a/b" "../outside" = inl msg).
Proof. split; [reflexivity | eexists; reflexivity]. Qed.

(** C10: the comparison lowercases root and candidate: with root [/A/B],
    the candidate [/a/b/x] (given absolute or as [../../a/b/x]) is
    accepted, although it is not under [/A/B] on a case-sensitive
    filesystem ([/A/B] is not a prefix of [/a/b/x]). *)
Theorem C10_case_folded_candidate_accepted (cwd : string) :
  withinRoot cwd "/A/B" "/a/b/x" = inr "/a/b/x" /\
  withinRoot cwd "/A/B" "../../a/b/x" = inr "/a/b/x" /\
  starts_with (normalize "/A/B") (normalize "/a/b/x") = false.
Proof. repeat split; reflexivity. Qed.

(* ================================================================= *)
(** ** The end-to-end update scenario *)

(** C2 (code_bug): on the scenario of the spec the response is
    [{ok:true, path:"a.txt", op:"update"}] but the file ends with two
    newlines: ["one\nTWO\nthree\n\n"] instead of ["one\nTWO\nthree\n"]. *)
Theorem C2_e2e_extra_newline :
  fst (apply_patch_request "/cwd" "/ws" (JStr e2e_patch) ws_fs) = RespOk "a.txt" "update" /\
  fs_files (snd (apply_patch_request "/cwd" "/ws" (JStr e2e_patch) ws_fs)) !! "/ws/a.txt"
    = Some (e2e_expected ++ nl) /\
  e2e_expected ++ nl <> e2e_expected.
Proof.
  split; [reflexivity|]. split; [reflexivity|].
  unfold e2e_expected. vm_compute. discriminate.
Qed.

(* ================================================================= *)
(** ** Format errors and deletes *)

(** The raw patch text the façade hands to the parser. *)
Definition patch_text (patch : jsval) : string :=
  js_String (if truthy patch then patch else JStr "").

(** C5: when the first line of the (CRLF-normalized) patch text does not
    contain [*** Begin Patch], the request answers [{error: "Patch missing
    *** Begin Patch"}] and the filesystem is left as it was. *)
Theorem C5_missing_begin_marker (cwd root : string) (patch : jsval) (s : FS) :
  has_begin_marker (split_nl (replace_crlf (patch_text patch))) = false ->
  apply_patch_request cwd root patch s = (RespErr msg_missing_begin, s).
Proof.
  intros H. unfold apply_patch_request, parseSimplifiedPatch.
  fold (patch_text patch). cbv zeta. rewrite H. reflexivity.
Qed.

Lemma C5_missing_begin_marker_witness :
  has_begin_marker (split_nl (replace_crlf (patch_text (JStr ("*** Delete File: a.txt" ++ nl
     ++ "*** Begin Patch"))))) = false /\
  apply_patch_request "/cwd" "/ws" (JStr ("*** Delete File: a.txt" ++ nl ++ "*** Begin Patch")) ws_fs
    = (RespErr msg_missing_begin, ws_fs).
Proof.
  split; [vm_compute; reflexivity|].
  apply C5_missing_begin_marker. vm_compute. reflexivity.
Defined.

Lemma apply_delete (cwd root raw : string) (parsed : parsed_patch) (abs : string) (s : FS) :
  parseSimplifiedPatch raw = inr parsed -> pp_op parsed = OpDelete ->
  withinRoot cwd root (pp_path parsed) = inr abs ->
  apply_patch_request cwd root (JStr raw) s = (RespOk (pp_path parsed) "delete", snd (fs_unlink abs s)).
Proof.
  intros Hp Hop Hw. unfold apply_patch_request. rewrite js_String_patch_str, Hp.
  unfold applyParsedPatch. rewrite (bind_inr _ _ s abs s) by (rewrite Hw; reflexivity).
  rewrite Hop. unfold catch.
  destruct (fs_unlink abs s) as [[e|[]] s'] eqn:Hu; reflexivity.
Qed.

Lemma fs_unlink_fail_state (p : string) (s s' : FS) (e : string) :
  fs_unlink p s = (inl e, s') -> s' = s.
Proof.
  unfold fs_unlink. destruct (decide _); [congruence|].
  destruct (fs_files s !! p); [destruct (decide _)|]; congruence.
Qed.

Definition del_patch : string :=
  join_nl ["*** Begin Patch"; "*** Delete File: a.txt"; "*** End Patch"].

(** C6: a delete whose target is absent (and inside the root) answers
    [{ok:true, path, op:"delete"}] and changes nothing. *)
Theorem C6_delete_missing_ok (cwd root raw : string) (parsed : parsed_patch) (abs : string) (s : FS) :
  parseSimplifiedPatch raw = inr parsed -> pp_op parsed = OpDelete ->
  withinRoot cwd root (pp_path parsed) = inr abs ->
  fs_files s !! abs = None ->
  apply_patch_request cwd root (JStr raw) s = (RespOk (pp_path parsed) "delete", s).
Proof.
  intros Hp Hop Hw Hn. rewrite (apply_delete cwd root raw parsed abs s Hp Hop Hw).
  unfold fs_unlink. destruct (decide _); [reflexivity|]. rewrite Hn. reflexivity.
Qed.

Lemma C6_delete_missing_ok_witness :
  apply_patch_request "/cwd" "/ws" (JStr del_patch) (mk_fs ∅ {[ "/"; "/ws" ]} ∅)
    = (RespOk "a.txt" "delete", mk_fs ∅ {[ "/"; "/ws" ]} ∅).
Proof.
  apply (C6_delete_missing_ok "/cwd" "/ws" del_patch (mk_patch OpDelete "a.txt" None []) "/ws/a.txt");
    vm_compute; reflexivity.
Defined.

(** A file the process may not unlink. *)
Definition locked_fs : FS :=
  mk_fs {[ "/ws/a.txt" := "x" ]} {[ "/"; "/ws" ]} {[ "/ws/a.txt" ]}.

(** C7, counterexample: unlinking the locked file fails with [EACCES],
    yet the delete request answers [{ok:true, op:"delete"}] and the file
    stays. *)
Lemma C7_eacces_reported_as_success :
  fs_unlink "/ws/a.txt" locked_fs
    = (inl (sys_err "EACCES" "permission denied" "unlink" "/ws/a.txt"), locked_fs) /\
  apply_patch_request "/cwd" "/ws" (JStr del_patch) locked_fs = (RespOk "a.txt" "delete", locked_fs) /\
  fs_files locked_fs !! "/ws/a.txt" = Some "x".
Proof. repeat split; vm_compute; reflexivity. Qed.

(** C7, as amended: every unlink failure is swallowed. A delete whose
    path passes the containment check always answers [{ok:true, path,
    op:"delete"}]; the file is removed when unlink succeeds and the
    filesystem is unchanged when it fails. *)
Theorem C7_delete_always_ok (cwd root raw : string) (parsed : parsed_patch) (abs : string) (s : FS) :
  parseSimplifiedPatch raw = inr parsed -> pp_op parsed = OpDelete ->
  withinRoot cwd root (pp_path parsed) = inr abs ->
  apply_patch_request cwd root (JStr raw) s = (RespOk (pp_path parsed) "delete", snd (fs_unlink abs s)) /\
  (forall e, fst (fs_unlink abs s) = inl e -> snd (fs_unlink abs s) = s).
Proof.
  intros Hp Hop Hw. split; [exact (apply_delete cwd root raw parsed abs s Hp Hop Hw)|].
  intros e He. destruct (fs_unlink abs s) as [r s'] eqn:Hu. simpl in *. subst r.
  exact (fs_unlink_fail_state abs s s' e Hu).
Qed.

Lemma C7_delete_always_ok_witness :
  apply_patch_request "/cwd" "/ws" (JStr del_patch) locked_fs
    = (RespOk "a.txt" "delete", snd (fs_unlink "/ws/a.txt" locked_fs)) /\
  (forall e, fst (fs_unlink "/ws/a.txt" locked_fs) = inl e ->
     snd (fs_unlink "/ws/a.txt" locked_fs) = locked_fs).
Proof.
  apply (C7_delete_always_ok "/cwd" "/ws" del_patch (mk_patch OpDelete "a.txt" None []) "/ws/a.txt");
    vm_compute; reflexivity.
Defined.

(* ================================================================= *)
(** ** Updates *)

Lemma str_app_nil_r (a : string) : a ++ "" = a.
Proof. induction a as [|c a IH]; [reflexivity | exact (f_equal (String c) IH)]. Qed.

Lemma str_app_assoc (a b c : string) : (a ++ b) ++ c = a ++ (b ++ c).
Proof. induction a as [|x a IH]; [reflexivity | exact (f_equal (String x) IH)]. Qed.

Lemma str_length_app (a b : string) :
  String.length (a ++ b) = String.length a + String.length b.
Proof. induction a as [|c a IH]; [reflexivity | exact (f_equal S IH)]. Qed.

Lemma join_with_cons (sep x : string) (l : list string) :
  join_with sep (x :: l) = x ++ match l with [] => "" | _ => sep ++ join_with sep l end.
Proof. destruct l; simpl; [rewrite str_app_nil_r|]; reflexivity. Qed.

Lemma split_on_nonempty (c : ascii) (t : string) : split_on c t <> [].
Proof.
  induction t as [|x r IH]; simpl; [discriminate|].
  destruct (Ascii.eqb x c); [discriminate|]. destruct (split_on c r); discriminate.
Qed.

(** [t.split(c).join(c) === t] *)
Lemma join_split (c : ascii) (t : string) : join_with (str1 c) (split_on c t) = t.
Proof.
  induction t as [|x r IH]; [reflexivity|]. simpl.
  destruct (Ascii.eqb x c) eqn:Hx.
  - apply Ascii.eqb_eq in Hx. subst x. rewrite join_with_cons.
    destruct (split_on c r) eqn:Hs; [exfalso; exact (split_on_nonempty c r Hs)|].
    rewrite <- IH. reflexivity.
  - destruct (split_on c r) as [|h t] eqn:Hs; [exfalso; exact (split_on_nonempty c r Hs)|].
    rewrite join_with_cons. rewrite join_with_cons in IH. rewrite <- IH. reflexivity.
Qed.

(** The number of newline characters of a string. *)
Fixpoint count_nl (t : string) : nat :=
  match t with
  | EmptyString => 0
  | String c r => (if Ascii.eqb c ch_nl then 1 else 0) + count_nl r
  end.

Lemma count_nl_app (a b : string) : count_nl (a ++ b) = count_nl a + count_nl b.
Proof. induction a as [|c a IH]; [reflexivity|]. simpl. rewrite <- Nat.add_assoc, <- IH. reflexivity. Qed.

(** CRLF normalization keeps every newline: each [\r\n] becomes [\n]. *)
Lemma replace_crlf_count_nl (t : string) : count_nl (replace_crlf t) = count_nl t.
Proof.
  remember (String.length t) as n eqn:Hn. revert t Hn.
  induction n as [n IH] using lt_wf_ind. intros t Hn.
  destruct t as [|c r]; [reflexivity|]. simpl in Hn. simpl replace_crlf.
  destruct (Ascii.eqb c ch_cr) eqn:Hc.
  - apply Ascii.eqb_eq in Hc. subst c.
    destruct r as [|c2 r2]; [reflexivity|]. simpl in Hn.
    destruct (Ascii.eqb c2 ch_nl) eqn:Hc2.
    + pose proof (IH (String.length r2) ltac:(lia) r2 eq_refl) as H.
      cbn [count_nl]. rewrite Hc2, H. reflexivity.
    + pose proof (IH (String.length (String c2 r2)) ltac:(simpl; lia) (String c2 r2) eq_refl) as H.
      cbn [count_nl] in *. rewrite H. reflexivity.
  - simpl. rewrite (IH (String.length r) ltac:(lia) r eq_refl). reflexivity.
Qed.

Lemma fs_writeFile_ok (p c : string) (s : FS) :
  p ∉ fs_dirs s -> dirname p ∈ fs_dirs s -> p ∉ fs_denied s ->
  fs_writeFile p c s = (inr tt, mk_fs (<[p := c]> (fs_files s)) (fs_dirs s) (fs_denied s)).
Proof.
  intros H1 H2 H3. unfold fs_writeFile.
  destruct (decide (p ∈ fs_dirs s)); [contradiction|].
  destruct (decide (dirname p ∉ fs_dirs s)); [contradiction|].
  destruct (decide (p ∈ fs_denied s)); [contradiction|]. reflexivity.
Qed.

(** The update branch, once the path is resolved and the file read. *)
Lemma apply_update (cwd root : string) (parsed : parsed_patch) (abs orig : string) (s : FS) :
  pp_op parsed = OpUpdate ->
  withinRoot cwd root (pp_path parsed) = inr abs ->
  fs_files s !! abs = Some orig ->
  applyParsedPatch cwd root parsed s
    = fs_writeFile abs (join_nl (apply_hunks (split_nl (replace_crlf orig)) (pp_hunks parsed)) ++ nl) s.
Proof.
  intros Hop Hw Hf. unfold applyParsedPatch.
  rewrite (bind_inr _ _ s abs s) by (rewrite Hw; reflexivity). rewrite Hop.
  rewrite (bind_inr _ _ s orig s); [reflexivity|].
  unfold catch, fs_readFile. rewrite Hf. reflexivity.
Qed.

Definition zero_hunk_patch : string :=
  join_nl ["*** Begin Patch"; "*** Update File: a.txt"; "*** End Patch"].

(** C9: an update writes back [join_nl] of the spliced lines of the
    CRLF-normalized original plus one newline; with no hunks the file
    becomes the normalized original followed by one more newline, which
    is never the original itself. *)
Theorem C9_zero_hunk_update_appends_newline
    (cwd root : string) (parsed : parsed_patch) (abs orig : string) (s : FS) :
  pp_op parsed = OpUpdate ->
  withinRoot cwd root (pp_path parsed) = inr abs ->
  fs_files s !! abs = Some orig ->
  abs ∉ fs_dirs s -> dirname abs ∈ fs_dirs s -> abs ∉ fs_denied s ->
  applyParsedPatch cwd root parsed s
    = (inr tt, mk_fs (<[abs := join_nl (apply_hunks (split_nl (replace_crlf orig)) (pp_hunks parsed)) ++ nl]>
                        (fs_files s)) (fs_dirs s) (fs_denied s)) /\
  (pp_hunks parsed = [] ->
   join_nl (apply_hunks (split_nl (replace_crlf orig)) (pp_hunks parsed)) ++ nl = replace_crlf orig ++ nl /\
   replace_crlf orig ++ nl <> orig).
Proof.
  intros Hop Hw Hf H1 H2 H3. split.
  - rewrite (apply_update cwd root parsed abs orig s Hop Hw Hf). apply fs_writeFile_ok; assumption.
  - intros Hh. rewrite Hh. split.
    + simpl. unfold join_nl, split_nl, nl. rewrite join_split. reflexivity.
    + intros Heq. pose proof (replace_crlf_count_nl orig) as Hl.
      apply (f_equal count_nl) in Heq. rewrite count_nl_app in Heq.
      simpl in Heq. lia.
Qed.

Lemma C9_zero_hunk_update_appends_newline_witness :
  applyParsedPatch "/cwd" "/ws" (mk_patch OpUpdate "a.txt" None []) ws_fs
    = (inr tt, mk_fs (<["/ws/a.txt" := join_nl (apply_hunks (split_nl (replace_crlf
         ("one" ++ nl ++ "two" ++ nl ++ "three" ++ nl))) []) ++ nl]> (fs_files ws_fs))
         (fs_dirs ws_fs) (fs_denied ws_fs)) /\
  ([] = @nil hunk ->
   join_nl (apply_hunks (split_nl (replace_crlf ("one" ++ nl ++ "two" ++ nl ++ "three" ++ nl))) [])
     ++ nl = replace_crlf ("one" ++ nl ++ "two" ++ nl ++ "three" ++ nl) ++ nl /\
   replace_crlf ("one" ++ nl ++ "two" ++ nl ++ "three" ++ nl) ++ nl
     <> "one" ++ nl ++ "two" ++ nl ++ "three" ++ nl).
Proof.
  apply (C9_zero_hunk_update_appends_newline "/cwd" "/ws" (mk_patch OpUpdate "a.txt" None [])
           "/ws/a.txt" ("one" ++ nl ++ "two" ++ nl ++ "three" ++ nl) ws_fs);
    [reflexivity | vm_compute; reflexivity | vm_compute; reflexivity | vm_compute; set_solver ..].
Defined.

Example zero_hunk_patch_parses :
  parseSimplifiedPatch zero_hunk_patch = inr (mk_patch OpUpdate "a.txt" None []).
Proof. reflexivity. Qed.

(* ================================================================= *)
(** ** Hunk splicing *)

(** The claim's reading of one splice: [result] is [lines] with exactly
    [c] lines deleted at index [i] and [repl] inserted there. *)
Definition spec_splice (lines : list string) (i c : nat) (repl result : list string) : Prop :=
  exists pre del post,
    lines = (pre ++ del ++ post)%list /\ length pre = i /\ length del = c /\
    result = (pre ++ repl ++ post)%list.

Definition hunk_1_3_x : hunk :=
  mk_hunk (mk_range 1 3) (mk_range 1 1) [mk_hline LRemove "a"; mk_hline LAdd "x"].

(** C3, counterexample: a hunk [@@ -1,3 +1,1 @@] on the one-line sequence
    [["a"]] yields [["x"]]; no splice deleting exactly 3 lines at index 0
    exists. *)
Lemma C3_count_clamped :
  apply_hunks ["a"] [hunk_1_3_x] = ["x"] /\
  ~ spec_splice ["a"] 0 3 (replacement hunk_1_3_x) (apply_hunks ["a"] [hunk_1_3_x]).
Proof.
  split; [reflexivity|].
  intros (pre & del & post & Hl & _ & Hd & _).
  apply (f_equal length) in Hl. rewrite !length_app in Hl. simpl in Hl. lia.
Qed.

(** In range, [Array.prototype.splice] deletes exactly [del] elements at
    [start] and inserts [items] there. *)
Lemma js_splice_in_range (l : list string) (start del : Z) (items : list string) :
  (0 <= start)%Z -> (0 <= del)%Z -> (start + del <= Z.of_nat (length l))%Z ->
  spec_splice l (Z.to_nat start) (Z.to_nat del) items (js_splice l start del items).
Proof.
  intros H1 H2 H3. unfold js_splice.
  replace (start <? 0)%Z with false by (symmetry; apply Z.ltb_ge; lia).
  replace (Z.min start (Z.of_nat (length l))) with start by lia.
  replace (Z.min (Z.max del 0) (Z.of_nat (length l) - start)) with del by lia.
  exists (firstn (Z.to_nat start) l), (firstn (Z.to_nat del) (skipn (Z.to_nat start) l)),
         (skipn (Z.to_nat (start + del)) l).
  repeat split.
  - rewrite Z2Nat.inj_add by lia. rewrite Nat.add_comm, <- skipn_skipn, !firstn_skipn. reflexivity.
  - rewrite length_firstn. lia.
  - rewrite length_firstn, length_skipn. lia.
Qed.

(** C3, as amended: hunks are spliced one after the other in patch order,
    each into the sequence the previous ones left, at the index
    [oldRange.start - 1] read from its own header (no offset adjustment),
    with the add and context texts as replacement, by
    [Array.prototype.splice]; when the hunk lies within the current
    sequence exactly [oldRange.count] lines are deleted at that index. *)
Theorem C3_hunks_spliced_in_order :
  (forall lines : list string, apply_hunks lines [] = lines) /\
  (forall (lines : list string) (h : hunk) (hs : list hunk),
     apply_hunks lines (h :: hs)
     = apply_hunks (js_splice lines (r_start (oldRange h) - 1) (r_count (oldRange h)) (replacement h)) hs) /\
  (forall (lines : list string) (h : hunk),
     (1 <= r_start (oldRange h))%Z -> (0 <= r_count (oldRange h))%Z ->
     (r_start (oldRange h) - 1 + r_count (oldRange h) <= Z.of_nat (length lines))%Z ->
     spec_splice lines (Z.to_nat (r_start (oldRange h) - 1)) (Z.to_nat (r_count (oldRange h)))
       (replacement h) (apply_hunk lines h)).
Proof.
  split; [reflexivity|]. split; [reflexivity|].
  intros lines h H1 H2 H3. unfold apply_hunk. apply js_splice_in_range; lia.
Qed.

Definition hunk_2_1 : hunk :=
  mk_hunk (mk_range 2 1) (mk_range 2 2) [mk_hline LRemove "b"; mk_hline LAdd "x"; mk_hline LAdd "y"].

Lemma C3_hunks_spliced_in_order_witness :
  spec_splice ["a"; "b"; "c"] 1 1 ["x"; "y"] ["a"; "x"; "y"; "c"].
Proof.
  pose proof (proj2 (proj2 C3_hunks_spliced_in_order) ["a"; "b"; "c"] hunk_2_1
                ltac:(simpl; lia) ltac:(simpl; lia) ltac:(simpl; lia)) as H.
  exact H.
Defined.

(** Two hunks of the same patch, both numbered against the original
    [a b c d e f]: the second one is spliced into the sequence the first
    left, which has one more line. *)
Example two_hunks_original_numbering :
  apply_hunks ["a"; "b"; "c"; "d"; "e"; "f"]
    [hunk_2_1; mk_hunk (mk_range 5 1) (mk_range 6 1) [mk_hline LRemove "e"; mk_hline LAdd "z"]]
  = ["a"; "x"; "y"; "c"; "z"; "e"; "f"].
Proof. reflexivity. Qed.

(* ================================================================= *)
(** ** Added files *)

(** The content of an added file as the spec words it: for each patch
    line, in order, that begins with ["+"] but not with ["+++"], its text
    without the ["+"] followed by a newline. *)
Fixpoint spec_add_file_content (lines : list string) : string :=
  match lines with
  | [] => ""
  | l :: rest =>
      if starts_with "+" l && negb (starts_with "+++" l)
      then slice1 l ++ nl ++ spec_add_file_content rest
      else spec_add_file_content rest
  end.

(** [xs.join("\n") + (xs.length ? "\n" : "")] puts a newline after each
    element. *)
Fixpoint str_concat (xs : list string) : string :=
  match xs with [] => "" | x :: t => x ++ str_concat t end.

Lemma join_nl_terminated (xs : list string) :
  join_nl xs ++ (match xs with [] => "" | _ => nl end) = str_concat (map (fun x => x ++ nl) xs).
Proof.
  induction xs as [|x t IH]; [reflexivity|].
  unfold join_nl in *. rewrite join_with_cons. simpl str_concat.
  destruct t as [|y t'].
  - simpl. rewrite !str_app_nil_r. reflexivity.
  - rewrite !str_app_assoc. f_equal. f_equal. rewrite <- IH. reflexivity.
Qed.

Lemma add_content_spec (lines : list string) :
  add_content lines = spec_add_file_content lines.
Proof.
  unfold add_content. rewrite join_nl_terminated. unfold add_content_lines, is_add_line.
  induction lines as [|l rest IH]; [reflexivity|]. simpl.
  destruct (starts_with "+" l && negb (starts_with "+++" l)); simpl.
  - rewrite str_app_assoc, IH. reflexivity.
  - exact IH.
Qed.

Lemma parse_add (raw : string) (parsed : parsed_patch) :
  parseSimplifiedPatch raw = inr parsed -> pp_op parsed = OpAdd ->
  pp_newContent parsed = Some (add_content (split_nl (replace_crlf raw))).
Proof.
  unfold parseSimplifiedPatch. cbv zeta.
  destruct (has_begin_marker _); [|discriminate]. simpl.
  destruct (find_header _) as [[op fp]|]; [|discriminate].
  destruct (String.eqb fp ""); [discriminate|].
  destruct op; intros H; injection H as <-; simpl; [reflexivity | discriminate | discriminate].
Qed.

Lemma fs_writeFile_sets (p c : string) (s s' : FS) :
  fs_writeFile p c s = (inr tt, s') -> fs_files s' !! p = Some c.
Proof.
  unfold fs_writeFile.
  repeat (destruct (decide _); [discriminate|]).
  intros H. injection H as <-. simpl. apply lookup_insert_eq.
Qed.

Lemma apply_add_sets (cwd root : string) (parsed : parsed_patch) (abs : string) (s s' : FS) :
  pp_op parsed = OpAdd -> withinRoot cwd root (pp_path parsed) = inr abs ->
  applyParsedPatch cwd root parsed s = (inr tt, s') ->
  fs_files s' !! abs = Some (match pp_newContent parsed with Some c => c | None => "" end).
Proof.
  intros Hop Hw. unfold applyParsedPatch.
  rewrite (bind_inr _ _ s abs s) by (rewrite Hw; reflexivity). rewrite Hop.
  unfold bind. destruct (fs_mkdir_p (dirname abs) s) as [[e|[]] s1]; [discriminate|].
  apply fs_writeFile_sets.
Qed.

Definition foo_bar_patch : string :=
  join_nl ["*** Begin Patch"; "*** Add File: x.txt"; "+foo"; "+bar"; "*** End Patch"].

(** C4: when an Add patch is applied, the file holds, for each
    patch line (after CRLF normalization) that begins with ["+"] but not
    with ["+++"], its text without the ["+"] followed by a newline; that
    is the texts joined with newlines plus one trailing newline, or [""]
    when there is none. Adding [foo] and [bar] gives ["foo\nbar\n"]. *)
Theorem C4_add_file_content
    (cwd root raw : string) (parsed : parsed_patch) (abs : string) (s s' : FS) :
  parseSimplifiedPatch raw = inr parsed -> pp_op parsed = OpAdd ->
  withinRoot cwd root (pp_path parsed) = inr abs ->
  applyParsedPatch cwd root parsed s = (inr tt, s') ->
  fs_files s' !! abs = Some (spec_add_file_content (split_nl (replace_crlf raw))) /\
  spec_add_file_content (split_nl (replace_crlf foo_bar_patch)) = "foo" ++ nl ++ "bar" ++ nl.
Proof.
  intros Hp Hop Hw Ha. split; [|reflexivity].
  rewrite (apply_add_sets cwd root parsed abs s s' Hop Hw Ha).
  rewrite (parse_add raw parsed Hp Hop), add_content_spec. reflexivity.
Qed.

Lemma C4_add_file_content_witness :
  fs_files (snd (apply_patch_request "/cwd" "/ws" (JStr foo_bar_patch) ws_fs)) !! "/ws/x.txt"
    = Some (spec_add_file_content (split_nl (replace_crlf foo_bar_patch))) /\
  spec_add_file_content (split_nl (replace_crlf foo_bar_patch)) = "foo" ++ nl ++ "bar" ++ nl.
Proof.
  apply (C4_add_file_content "/cwd" "/ws" foo_bar_patch
           (mk_patch OpAdd "x.txt" (Some ("foo" ++ nl ++ "bar" ++ nl)) []) "/ws/x.txt" ws_fs);
    vm_compute; reflexivity.
Defined.

(* ================================================================= *)
(** ** The shape of resolved paths, [dirname] and [mkdir -p] *)

Fixpoint has_char (c : ascii) (s : string) : bool :=
  match s with
  | EmptyString => false
  | String x r => Ascii.eqb x c || has_char c r
  end.

(** A path segment as [path.resolve] leaves it: non-empty, no slash. *)
Definition seg_ok (x : string) : Prop := x <> "" /\ has_char ch_slash x = false.

Lemma split_on_app_free (c : ascii) (x t : string) :
  has_char c x = false ->
  split_on c (x ++ t) = match split_on c t with h :: r => (x ++ h) :: r | [] => [x] end.
Proof.
  induction x as [|y x IH]; intros Hx.
  - change (EmptyString ++ t) with t.
    destruct (split_on c t) eqn:E; [exfalso; exact (split_on_nonempty c t E)|]. reflexivity.
  - simpl in Hx. apply orb_false_iff in Hx as [Hy Hx].
    change (String y x ++ t) with (String y (x ++ t)). simpl. rewrite Hy, (IH Hx).
    destruct (split_on c t); reflexivity.
Qed.

Lemma split_on_sep (c : ascii) (z : string) : split_on c (String c z) = "" :: split_on c z.
Proof. simpl. rewrite Ascii.eqb_refl. reflexivity. Qed.

Lemma split_join (c : ascii) (ys : list string) :
  ys <> [] -> Forall (fun x => has_char c x = false) ys ->
  split_on c (join_with (str1 c) ys) = ys.
Proof.
  induction ys as [|y t IH]; intros Hne Hf; [contradiction|].
  inversion Hf as [|? ? Hy Ht]; subst.
  destruct t as [|y' t'].
  - simpl. rewrite <- (str_app_nil_r y) at 1. rewrite (split_on_app_free c y "" Hy).
    simpl. rewrite str_app_nil_r. reflexivity.
  - change (join_with (str1 c) (y :: y' :: t')) with (y ++ String c (join_with (str1 c) (y' :: t'))).
    rewrite (split_on_app_free c y _ Hy), split_on_sep.
    rewrite IH by (discriminate || assumption). rewrite str_app_nil_r. reflexivity.
Qed.

Lemma split_on_free (c : ascii) (t : string) :
  Forall (fun x => has_char c x = false) (split_on c t).
Proof.
  induction t as [|y r IH]; simpl; [constructor; [reflexivity | constructor]|].
  destruct (Ascii.eqb y c) eqn:Hy; [constructor; [reflexivity | exact IH]|].
  destruct (split_on c r) as [|h tl]; [constructor; [simpl; rewrite Hy; reflexivity | constructor]|].
  inversion IH; subst. constructor; [simpl; rewrite Hy; assumption | assumption].
Qed.

Lemma norm_segs_ok (acc segs : list string) :
  Forall seg_ok acc -> Forall (fun x => has_char ch_slash x = false) segs ->
  Forall seg_ok (norm_segs false acc segs).
Proof.
  revert acc. induction segs as [|s rest IH]; intros acc Ha Hs; [exact Ha|].
  inversion Hs as [|? ? Hs1 Hs2]; subst. simpl.
  destruct (String.eqb s "" || String.eqb s ".") eqn:E1; [apply IH; assumption|].
  destruct (String.eqb s "..").
  - destruct acc as [|x acc']; [apply IH; [constructor | assumption]|].
    inversion Ha; subst.
    destruct (String.eqb x ".."); apply IH; assumption.
  - apply IH; [|assumption]. constructor; [|assumption].
    split; [|assumption]. apply orb_false_iff in E1 as [E1 _].
    apply String.eqb_neq in E1. exact E1.
Qed.

(** With an absolute working directory, [path.resolve] returns ["/"]
    followed by slash-free, non-empty segments joined by ["/"]. *)
Lemma resolve_shape (cwd : string) (args : list string) :
  is_abs cwd = true ->
  exists ys, resolve cwd args = "/" ++ join_with "/" ys /\ Forall seg_ok ys.
Proof.
  intros Hc. unfold resolve.
  assert (Hn : forall acc, exists ys,
    "/" ++ normalize_string acc (negb true) = "/" ++ join_with "/" ys /\ Forall seg_ok ys).
  { intros acc. exists (rev (norm_segs false [] (split_on ch_slash acc))). split; [reflexivity|].
    apply Forall_rev, norm_segs_ok; [constructor | apply split_on_free]. }
  destruct (resolve_go (rev args) "") as [acc [|]]; [apply Hn|].
  destruct (String.eqb cwd "") eqn:E.
  - apply String.eqb_eq in E. subst cwd. discriminate.
  - rewrite Hc. apply Hn.
Qed.

Lemma list_ascii_of_string_app (a b : string) :
  list_ascii_of_string (a ++ b) = (list_ascii_of_string a ++ list_ascii_of_string b)%list.
Proof. induction a as [|c a IH]; [reflexivity|]. simpl. rewrite IH. reflexivity. Qed.

Lemma has_char_false_Forall (c : ascii) (s : string) :
  has_char c s = false -> Forall (fun x => x <> c) (list_ascii_of_string s).
Proof.
  induction s as [|x r IH]; intros H; [constructor|]. simpl in H.
  apply orb_false_iff in H as [H1 H2]. constructor; [|exact (IH H2)].
  intros ->. rewrite Ascii.eqb_refl in H1. discriminate.
Qed.

Lemma dirname_scan_free (m : bool) (z : list ascii) :
  Forall (fun x => x <> ch_slash) z -> dirname_scan m z = None.
Proof.
  revert m. induction z as [|x z IH]; intros m Hz; [reflexivity|].
  inversion Hz as [|? ? Hx Hz']; subst. simpl.
  destruct (Ascii.eqb x ch_slash) eqn:E; [apply Ascii.eqb_eq in E; contradiction|].
  exact (IH false Hz').
Qed.

Lemma dirname_scan_last_slash (m : bool) (z rest : list ascii) :
  z <> [] -> Forall (fun x => x <> ch_slash) z -> dirname_scan m (z ++ ch_slash :: rest)%list = Some rest.
Proof.
  revert m. induction z as [|x z IH]; intros m Hne Hz; [contradiction|].
  inversion Hz as [|? ? Hx Hz']; subst. simpl.
  destruct (Ascii.eqb x ch_slash) eqn:E; [apply Ascii.eqb_eq in E; contradiction|].
  destruct z as [|x' z']; [reflexivity|]. apply IH; [discriminate | exact Hz'].
Qed.

Lemma join_snoc (sep : string) (ys : list string) (y : string) :
  join_with sep (ys ++ [y])%list = match ys with [] => y | _ => join_with sep ys ++ sep ++ y end.
Proof.
  induction ys as [|x t IH]; [reflexivity|].
  rewrite <- app_comm_cons, join_with_cons, IH. rewrite join_with_cons.
  destruct t as [|x' t']; simpl; [rewrite str_app_nil_r; reflexivity|].
  rewrite !str_app_assoc. reflexivity.
Qed.

Lemma seg_ok_join_nonempty (ys : list string) :
  ys <> [] -> Forall seg_ok ys -> join_with "/" ys <> "".
Proof.
  destruct ys as [|y t]; intros Hne Hf; [contradiction|].
  inversion Hf as [|? ? [Hy _] _]; subst. rewrite join_with_cons.
  destruct y; [contradiction | discriminate].
Qed.

Lemma Forall_seg_free (ys : list string) :
  Forall seg_ok ys -> Forall (fun x => has_char ch_slash x = false) ys.
Proof. intros H. eapply Forall_impl; [exact H|]. intros x [_ Hx]. exact Hx. Qed.

(** [dirname] drops the last segment of a resolved path. *)
Lemma dirname_shape (ys : list string) (y : string) :
  Forall seg_ok (ys ++ [y])%list ->
  dirname ("/" ++ join_with "/" (ys ++ [y])%list) = "/" ++ join_with "/" ys.
Proof.
  intros Hf. apply Forall_app in Hf as [Hys Hy]. inversion Hy as [|? ? [Hy1 Hy2] _]; subst.
  pose proof (has_char_false_Forall _ _ Hy2) as Hyc.
  assert (Hz : rev (list_ascii_of_string y) <> []).
  { destruct y; [contradiction|]. simpl. intros H. apply app_eq_nil in H as [_ H]. discriminate. }
  unfold dirname. rewrite join_snoc.
  change (list_ascii_of_string ("/" ++ ?s)) with (ch_slash :: list_ascii_of_string s).
  cbv iota beta. change (Ascii.eqb ch_slash ch_slash) with true.
  destruct ys as [|x t].
  - rewrite (dirname_scan_free true _ (Forall_rev Hyc)). reflexivity.
  - rewrite !list_ascii_of_string_app. change (list_ascii_of_string ("/" ++ y)) with
      (ch_slash :: list_ascii_of_string y).
    rewrite rev_app_distr. simpl rev at 1. rewrite <- app_assoc.
    assert (Ec : forall r : list ascii, (["/"%char] ++ r)%list = ch_slash :: r) by reflexivity.
    rewrite Ec.
    rewrite (dirname_scan_last_slash true _ _ Hz (Forall_rev Hyc)).
    pose proof (seg_ok_join_nonempty (x :: t) ltac:(discriminate) Hys) as Hj.
    destruct (rev (list_ascii_of_string (join_with "/" (x :: t)))) eqn:Hr.
    + exfalso. apply Hj. apply (f_equal (@rev ascii)) in Hr. rewrite rev_involutive in Hr.
      rewrite <- (string_of_list_ascii_of_string (join_with "/" (x :: t))), Hr. reflexivity.
    + rewrite <- Hr, rev_involutive. simpl. rewrite string_of_list_ascii_of_string. reflexivity.
Qed.

(** [mkdir -p] of a resolved path creates each of its prefixes. *)
Lemma ancestors_shape (ys : list string) :
  Forall seg_ok ys ->
  ancestors ("/" ++ join_with "/" ys) = map (fun k => "/" ++ join_with "/" (firstn k ys)) (seq 0 (S (length ys))).
Proof.
  intros Hf. unfold ancestors.
  assert (Hs : List.filter (fun x => negb (String.eqb x "")) (split_on ch_slash ("/" ++ join_with "/" ys)) = ys).
  { change ("/" ++ join_with "/" ys) with (String ch_slash (join_with (str1 ch_slash) ys)).
    rewrite split_on_sep. simpl List.filter.
    destruct ys as [|y t]; [reflexivity|].
    rewrite split_join by (discriminate || exact (Forall_seg_free _ Hf)).
    apply forallb_filter_id. apply forallb_forall. intros x Hx.
    rewrite List.Forall_forall in Hf. destruct (Hf x Hx) as [Hne _].
    apply negb_true_iff, String.eqb_neq. exact Hne. }
  rewrite Hs. reflexivity.
Qed.

Lemma join_firstn_prefix (sep : string) (l : list string) (k : nat) :
  exists r, join_with sep l = join_with sep (firstn k l) ++ r.
Proof.
  revert k. induction l as [|x t IH]; intros k.
  - exists "". rewrite firstn_nil. reflexivity.
  - destruct k as [|k]; [exists (join_with sep (x :: t)); reflexivity|].
    simpl firstn. rewrite !join_with_cons.
    destruct (firstn k t) as [|y u] eqn:Ef.
    + exists (match t with [] => "" | _ => sep ++ join_with sep t end).
      rewrite str_app_nil_r. reflexivity.
    + destruct (IH k) as [r Hr]. rewrite Ef in Hr. exists r.
      destruct t as [|z w]; [rewrite firstn_nil in Ef; discriminate|].
      rewrite Hr, !str_app_assoc. reflexivity.
Qed.

Lemma mkdir_chain_ok (ds : list string) (s : FS) :
  Forall (fun a => fs_files s !! a = None) ds ->
  mkdir_chain ds s = (inr tt, mk_fs (fs_files s) (list_to_set ds ∪ fs_dirs s) (fs_denied s)).
Proof.
  revert s. induction ds as [|a ds IH]; intros s Hf.
  - simpl. destruct s. simpl. f_equal. f_equal. set_solver.
  - inversion Hf as [|? ? Ha Hds]; subst. simpl.
    destruct (decide (is_Some (fs_files s !! a))) as [Hs|_].
    { rewrite Ha in Hs. destruct Hs as [? Hs]. discriminate. }
    rewrite IH by exact Hds. simpl. f_equal. f_equal. set_solver.
Qed.

Lemma withinRoot_inr (cwd root p abs : string) :
  withinRoot cwd root p = inr abs -> exists rel, abs = resolve cwd [resolve cwd [root]; rel].
Proof.
  unfold withinRoot. cbv zeta.
  destruct (negb _); [discriminate|]. intros H. injection H as <-. eexists. reflexivity.
Qed.

Lemma str_cons_inj (c : ascii) (a b : string) : String c a = String c b -> a = b.
Proof. intros H. injection H as H. exact H. Qed.

(** Creating the parents of a resolved path, then writing it. *)
Lemma mkdir_write_resolved (cwd : string) (args : list string) (c : string) (s : FS) :
  is_abs cwd = true -> "/" ∈ fs_dirs s ->
  let abs := resolve cwd args in
  Forall (fun a => fs_files s !! a = None) (ancestors (dirname abs)) ->
  abs ∉ fs_dirs s -> abs ∉ fs_denied s ->
  dirname abs ∈ ancestors (dirname abs) /\
  (fs_mkdir_p (dirname abs) ;;; fs_writeFile abs c) s
    = (inr tt, mk_fs (<[abs := c]> (fs_files s))
                     (list_to_set (ancestors (dirname abs)) ∪ fs_dirs s) (fs_denied s)).
Proof.
  intros Hc Hroot abs Hanc Hd Hden.
  destruct (resolve_shape cwd args Hc) as [ys [Habs Hys]]. fold abs in Habs.
  destruct (rev ys) as [|y rys] eqn:Hr.
  { apply (f_equal (@rev string)) in Hr. rewrite rev_involutive in Hr. subst ys.
    change ("/" ++ join_with "/" []) with "/" in Habs. rewrite Habs in Hd. contradiction. }
  assert (Hys' : ys = (rev rys ++ [y])%list).
  { apply (f_equal (@rev string)) in Hr. rewrite rev_involutive in Hr. exact Hr. }
  set (zs := rev rys) in *. clearbody zs. subst ys.
  pose proof (dirname_shape zs y Hys) as Hdn. rewrite <- Habs in Hdn.
  apply Forall_app in Hys as [Hzs Hy]. inversion Hy as [|? ? [Hy1 _] _]; subst.
  rewrite Hdn in *. rewrite (ancestors_shape zs Hzs) in *.
  assert (Hin : "/" ++ join_with "/" zs ∈ map (fun k => "/" ++ join_with "/" (firstn k zs)) (seq 0 (S (length zs)))).
  { apply list_elem_of_In, in_map_iff. exists (length zs). split.
    - rewrite firstn_all. reflexivity.
    - apply in_seq. lia. }
  split; [exact Hin|].
  unfold bind, fs_mkdir_p. rewrite (ancestors_shape zs Hzs), (mkdir_chain_ok _ s Hanc).
  apply fs_writeFile_ok; cbn [fs_dirs fs_denied].
  - intros Hel. apply elem_of_union in Hel as [Hel|Hel]; [|contradiction].
    apply elem_of_list_to_set, list_elem_of_In, in_map_iff in Hel as [k [Hk _]].
    rewrite Habs in Hk. apply str_cons_inj in Hk.
    destruct (join_firstn_prefix "/" zs k) as [r Hpre].
    apply (f_equal String.length) in Hk. rewrite join_snoc in Hk.
    destruct zs as [|z zs'].
    + rewrite firstn_nil in Hk. destruct y; [contradiction | discriminate].
    + rewrite Hpre, !str_length_app in Hk. simpl in Hk. lia.
  - apply elem_of_union_l, elem_of_list_to_set. rewrite Hdn. exact Hin.
  - exact Hden.
Qed.

(* ================================================================= *)
(** ** rewrite_file *)

(** C8: for a string path that is not blank and resolves inside the root,
    [rewrite_file] creates every parent directory of the resolved path,
    writes the content verbatim (the empty string when [content] is absent
    or not a string, which truncates an existing file to zero bytes) and
    answers [{ok:true, path, op:"rewrite"}]; a missing, non-string or blank
    path is answered with [{error}] and changes nothing. The process
    working directory is absolute, the filesystem root ["/"] exists, no
    file stands where a parent directory goes, and the target is neither a
    directory nor write-protected. *)
Theorem C8_rewrite_file (cwd root p : string) (content : jsval) (abs : string) (s : FS) :
  is_abs cwd = true -> "/" ∈ fs_dirs s ->
  (trim p <> "" ->
   withinRoot cwd root p = inr abs ->
   Forall (fun a => fs_files s !! a = None) (ancestors (dirname abs)) ->
   abs ∉ fs_dirs s -> abs ∉ fs_denied s ->
   dirname abs ∈ ancestors (dirname abs) /\
   rewrite_file_request cwd root (JStr p) content s
     = (RespOk p "rewrite",
        mk_fs (<[abs := match content with JStr c => c | _ => "" end]> (fs_files s))
              (list_to_set (ancestors (dirname abs)) ∪ fs_dirs s) (fs_denied s))) /\
  (forall pv : jsval, match pv with JStr q => trim q = "" | _ => True end ->
   rewrite_file_request cwd root pv content s = (RespErr msg_bad_rewrite_path, s)).
Proof.
  intros Hc Hroot. split.
  - intros Hp Hw Hanc Hd Hden.
    destruct (withinRoot_inr cwd root p abs Hw) as [rel Habs].
    subst abs.
    destruct (mkdir_write_resolved cwd [resolve cwd [root]; rel]
                (match content with JStr c => c | _ => "" end) s Hc Hroot Hanc Hd Hden) as [Hin Hrun].
    split; [exact Hin|].
    unfold rewrite_file_request.
    destruct (String.eqb (trim p) "") eqn:E; [apply String.eqb_eq in E; contradiction|].
    unfold rewriteFile. rewrite (bind_inr _ _ s _ s) by (rewrite Hw; reflexivity).
    rewrite Hrun. reflexivity.
  - intros pv Hpv. unfold rewrite_file_request.
    destruct pv as [| | | |q]; try reflexivity.
    rewrite Hpv. reflexivity.
Qed.

(** [/ws/a.txt] of [ws_fs] rewritten with empty content, and a blank path. *)
Lemma C8_rewrite_file_witness :
  rewrite_file_request "/cwd" "/ws" (JStr "a.txt") (JStr "") ws_fs
    = (RespOk "a.txt" "rewrite",
       mk_fs (<["/ws/a.txt" := ""]> (fs_files ws_fs))
             (list_to_set (ancestors (dirname "/ws/a.txt")) ∪ fs_dirs ws_fs) (fs_denied ws_fs)) /\
  rewrite_file_request "/cwd" "/ws" (JStr "  ") (JStr "") ws_fs = (RespErr msg_bad_rewrite_path, ws_fs).
Proof.
  destruct (C8_rewrite_file "/cwd" "/ws" "a.txt" (JStr "") "/ws/a.txt" ws_fs)
    as [H1 H2]; [reflexivity | unfold ws_fs; simpl; set_solver |].
  split.
  - apply H1.
    + vm_compute. discriminate.
    + reflexivity.
    + vm_compute. repeat constructor.
    + unfold ws_fs; simpl; set_solver.
    + unfold ws_fs; simpl; set_solver.
  - apply (H2 (JStr "  ")). reflexivity.
Defined.

Example C8_truncation_example :
  fs_files (snd (rewrite_file_request "/cwd" "/ws" (JStr "a.txt") (JStr "") ws_fs)) !! "/ws/a.txt" = Some "".
Proof. reflexivity. Qed.

(* ================================================================= *)
(** ** Further properties of the parser *)

(** A line the header loop of [parseSimplifiedPatch] stops at. *)
Definition is_header_line (l : string) : bool :=
  starts_with "*** Add File:" l || starts_with "*** Update File:" l || starts_with "*** Delete File:" l.

Lemma find_header_app (pre post : list string) (h : string) :
  Forall (fun l => is_header_line l = false) pre -> is_header_line h = true ->
  find_header (pre ++ h :: post)%list = find_header [h].
Proof.
  intros Hpre Hh. induction Hpre as [|l pre Hl _ IH].
  - simpl. unfold is_header_line in Hh.
    destruct (starts_with "*** Add File:" h); [reflexivity|].
    destruct (starts_with "*** Update File:" h); [reflexivity|].
    destruct (starts_with "*** Delete File:" h); [reflexivity | discriminate].
  - simpl. unfold is_header_line in Hl.
    apply orb_false_iff in Hl as [Hl Hd]. apply orb_false_iff in Hl as [Ha Hu].
    rewrite Ha, Hu, Hd. exact IH.
Qed.

Lemma parse_header (raw : string) (p : parsed_patch) :
  parseSimplifiedPatch raw = inr p ->
  find_header (split_nl (replace_crlf raw)) = Some (pp_op p, pp_path p) /\ pp_path p <> "".
Proof.
  unfold parseSimplifiedPatch. cbv zeta.
  destruct (has_begin_marker _); [|discriminate]. simpl.
  destruct (find_header _) as [[op fp]|]; [|discriminate].
  destruct (String.eqb fp "") eqn:E; [discriminate|]. apply String.eqb_neq in E.
  destruct op; intros H; injection H as <-; simpl; split; (reflexivity || exact E).
Qed.

Definition two_headers_patch : string :=
  join_nl ["*** Begin Patch"; "*** Delete File: a.txt"; "*** Add File: b.txt"; "+x"; "*** End Patch"].

(** X1: the operation and the path come from the first line, in order,
    that starts with one of the three headers; later header lines are
    ignored. *)
Theorem X1_first_header_wins (raw : string) (pre post : list string) (h : string) (p : parsed_patch) :
  split_nl (replace_crlf raw) = (pre ++ h :: post)%list ->
  Forall (fun l => is_header_line l = false) pre -> is_header_line h = true ->
  parseSimplifiedPatch raw = inr p ->
  find_header [h] = Some (pp_op p, pp_path p).
Proof.
  intros Hl Hpre Hh Hp. destruct (parse_header raw p Hp) as [Hf _].
  rewrite Hl, (find_header_app pre post h Hpre Hh) in Hf. exact Hf.
Qed.

Lemma X1_first_header_wins_witness :
  find_header ["*** Delete File: a.txt"] = Some (OpDelete, "a.txt").
Proof.
  apply (X1_first_header_wins two_headers_patch ["*** Begin Patch"]
           ["*** Add File: b.txt"; "+x"; "*** End Patch"] "*** Delete File: a.txt"
           (mk_patch OpDelete "a.txt" None [])); try reflexivity.
  repeat constructor.
Defined.

Lemma trim_end_idem (s : string) : trim_end (trim_end s) = trim_end s.
Proof.
  induction s as [|c r IH]; [reflexivity|]. simpl.
  destruct (is_ws c && String.eqb (trim_end r) "") eqn:E; [reflexivity|].
  simpl. rewrite IH, E. reflexivity.
Qed.

Lemma trim_start_trim_end (s : string) : trim_start (trim_end (trim_start s)) = trim_end (trim_start s).
Proof.
  induction s as [|c r IH]; [reflexivity|]. simpl.
  destruct (is_ws c) eqn:Hc; [exact IH|]. simpl. rewrite Hc. simpl. rewrite Hc. reflexivity.
Qed.

(** [s.trim().trim() === s.trim()] *)
Lemma trim_idem (s : string) : trim (trim s) = trim s.
Proof. unfold trim. rewrite trim_start_trim_end, trim_end_idem. reflexivity. Qed.

Lemma find_header_trimmed (lines : list string) (op : op_kind) (fp : string) :
  find_header lines = Some (op, fp) -> trim fp = fp.
Proof.
  induction lines as [|l rest IH]; simpl; [discriminate|].
  destruct (starts_with "*** Add File:" l); [intros H; injection H as _ <-; apply trim_idem|].
  destruct (starts_with "*** Update File:" l); [intros H; injection H as _ <-; apply trim_idem|].
  destruct (starts_with "*** Delete File:" l); [intros H; injection H as _ <-; apply trim_idem|].
  exact IH.
Qed.

(** X2: a parsed patch always has a non-empty path without leading or
    trailing white space. *)
Theorem X2_parsed_path_trimmed (raw : string) (p : parsed_patch) :
  parseSimplifiedPatch raw = inr p -> pp_path p <> "" /\ trim (pp_path p) = pp_path p.
Proof.
  intros Hp. destruct (parse_header raw p Hp) as [Hf Hne].
  split; [exact Hne | exact (find_header_trimmed _ _ _ Hf)].
Qed.

Lemma X2_parsed_path_trimmed_witness :
  "a.txt" <> "" /\ trim "a.txt" = "a.txt".
Proof.
  apply (X2_parsed_path_trimmed (join_nl ["*** Begin Patch"; "*** Delete File:   a.txt  "])
           (mk_patch OpDelete "a.txt" None [])).
  reflexivity.
Defined.

(** The ranges of the hunk header lines, in order. *)
Fixpoint header_ranges (lines : list string) : list (range * range) :=
  match lines with
  | [] => []
  | l :: rest =>
      match match_hunk_header l with
      | Some (a, b, c, d) => (mk_range a b, mk_range c d) :: header_ranges rest
      | None => header_ranges rest
      end
  end.

(** The hunk lines the classification keeps, in order. *)
Fixpoint hunk_body (lines : list string) : list hunk_line :=
  match lines with
  | [] => []
  | l :: rest =>
      match classify_line l with
      | Some ln => ln :: hunk_body rest
      | None => hunk_body rest
      end
  end.

Definition hunk_ranges (h : hunk) : range * range := (oldRange h, newRange h).

Lemma collect_hunks_ranges (lines : list string) (cur : option hunk) (acc : list hunk) :
  map hunk_ranges (collect_hunks lines cur acc)
  = (map hunk_ranges acc ++ match cur with Some h => [hunk_ranges h] | None => [] end
     ++ header_ranges lines)%list.
Proof.
  revert cur acc. induction lines as [|l rest IH]; intros cur acc; simpl.
  - destruct cur as [h|]; simpl; [rewrite map_app|]; simpl; rewrite ?app_nil_r; reflexivity.
  - destruct (match_hunk_header l) as [[[[a b] c] d]|].
    + rewrite IH. destruct cur as [h|]; simpl; [rewrite map_app, <- app_assoc|]; reflexivity.
    + destruct cur as [h|]; [destruct (classify_line l)|]; rewrite IH; reflexivity.
Qed.

Lemma collect_hunks_pre (pre rest : list string) (acc : list hunk) :
  Forall (fun l => match_hunk_header l = None) pre ->
  collect_hunks (pre ++ rest)%list None acc = collect_hunks rest None acc.
Proof.
  intros H. induction H as [|l pre Hl _ IH]; [reflexivity|]. simpl. rewrite Hl. exact IH.
Qed.

Lemma collect_hunks_body (body : list string) (h : hunk) (acc : list hunk) :
  Forall (fun l => match_hunk_header l = None) body ->
  collect_hunks body (Some h) acc
  = (acc ++ [mk_hunk (oldRange h) (newRange h) (h_lines h ++ hunk_body body)])%list.
Proof.
  intros H. revert h. induction H as [|l body Hl _ IH]; intros h; simpl.
  - rewrite app_nil_r. destruct h; reflexivity.
  - rewrite Hl. destruct (classify_line l) as [ln|].
    + rewrite IH. simpl. rewrite <- app_assoc. reflexivity.
    + rewrite IH. reflexivity.
Qed.

Lemma parse_update (raw : string) (p : parsed_patch) :
  parseSimplifiedPatch raw = inr p -> pp_op p = OpUpdate ->
  pp_hunks p = collect_hunks (split_nl (replace_crlf raw)) None [].
Proof.
  unfold parseSimplifiedPatch. cbv zeta.
  destruct (has_begin_marker _); [|discriminate]. simpl.
  destruct (find_header _) as [[op fp]|]; [|discriminate].
  destruct (String.eqb fp ""); [discriminate|].
  destruct op; intros H; injection H as <-; simpl; congruence.
Qed.

(** X4: an update has one hunk per line matching the hunk header
    [@@ -a,b +c,d @@], in the order of those lines, with old range
    [(a, b)] and new range [(c, d)]. *)
Theorem X4_update_hunk_ranges (raw : string) (p : parsed_patch) :
  parseSimplifiedPatch raw = inr p -> pp_op p = OpUpdate ->
  map hunk_ranges (pp_hunks p) = header_ranges (split_nl (replace_crlf raw)).
Proof.
  intros Hp Hop. rewrite (parse_update raw p Hp Hop), collect_hunks_ranges. reflexivity.
Qed.

Definition two_hunk_update : string :=
  join_nl ["*** Begin Patch"; "*** Update File: a.txt"; "@@ -1,1 +1,1 @@"; "-one"; "+ONE";
           "@@ -3,1 +3,2 @@"; "-three"; "+THREE"; "+four"; "*** End Patch"].

Lemma X4_update_hunk_ranges_witness :
  map hunk_ranges (collect_hunks (split_nl (replace_crlf two_hunk_update)) None [])
  = [(mk_range 1 1, mk_range 1 1); (mk_range 3 1, mk_range 3 2)]%Z.
Proof.
  apply (X4_update_hunk_ranges two_hunk_update
           (mk_patch OpUpdate "a.txt" None (collect_hunks (split_nl (replace_crlf two_hunk_update)) None []))).
  - vm_compute. reflexivity.
  - reflexivity.
Defined.

(** The hunk a header line and the lines after it give. *)
Definition seg_hunk (hdr : string) (body : list string) : option hunk :=
  match match_hunk_header hdr with
  | Some (a, b, c, d) => Some (mk_hunk (mk_range a b) (mk_range c d) (hunk_body body))
  | None => None
  end.

Fixpoint seg_hunks (segs : list (string * list string)) : list hunk :=
  match segs with
  | [] => []
  | (h, b) :: rest =>
      match seg_hunk h b with
      | Some x => x :: seg_hunks rest
      | None => seg_hunks rest
      end
  end.

(** The lines of a sequence of segments, each a header line followed by
    its body. *)
Definition seg_lines (segs : list (string * list string)) : list string :=
  List.concat (List.map (fun '(h, b) => h :: b) segs).

(** A well-formed segment: its first line is a hunk header and no line of
    its body is one. *)
Definition seg_wf (sb : string * list string) : Prop :=
  is_Some (match_hunk_header (fst sb)) /\ Forall (fun l => match_hunk_header l = None) (snd sb).

Lemma collect_hunks_body_app (body rest : list string) (h : hunk) (acc : list hunk) :
  Forall (fun l => match_hunk_header l = None) body ->
  collect_hunks (body ++ rest)%list (Some h) acc
  = collect_hunks rest (Some (mk_hunk (oldRange h) (newRange h) (h_lines h ++ hunk_body body))) acc.
Proof.
  intros H. revert h. induction H as [|l body Hl _ IH]; intros h.
  - simpl. rewrite app_nil_r. destruct h; reflexivity.
  - simpl. rewrite Hl. destruct (classify_line l) as [ln|].
    + rewrite IH. simpl. rewrite <- app_assoc. reflexivity.
    + rewrite IH. reflexivity.
Qed.

Lemma collect_hunks_segs (segs : list (string * list string)) (cur : option hunk) (acc : list hunk) :
  Forall seg_wf segs ->
  collect_hunks (seg_lines segs) cur acc
  = (acc ++ match cur with Some h => [h] | None => [] end ++ seg_hunks segs)%list.
Proof.
  intros H. revert cur acc. induction H as [|[h b] rest [Hh Hb] _ IH]; intros cur acc.
  - simpl. destruct cur; rewrite ?app_nil_r; reflexivity.
  - cbn [fst snd] in Hh, Hb. destruct (match_hunk_header h) as [[[[a b'] c] d]|] eqn:E;
      [|destruct Hh as [? Hh]; discriminate].
    unfold seg_lines. simpl List.map. rewrite concat_cons. fold (seg_lines rest).
    simpl. rewrite E, collect_hunks_body_app by exact Hb. rewrite IH.
    unfold seg_hunk. rewrite E. simpl.
    destruct cur; simpl; rewrite <- ?app_assoc; reflexivity.
Qed.

Lemma seg_hunks_length (segs : list (string * list string)) :
  Forall seg_wf segs -> length (seg_hunks segs) = length segs.
Proof.
  intros H. induction H as [|[h b] rest [Hh _] _ IH]; [reflexivity|].
  cbn [fst] in Hh. simpl. unfold seg_hunk.
  destruct (match_hunk_header h) as [[[[a b'] c] d]|]; [|destruct Hh as [? Hh]; discriminate].
  simpl. rewrite IH. reflexivity.
Qed.

(** X5: in an update, the lines before the first hunk header are ignored,
    and each hunk header line gives one hunk, in order, whose lines are
    those up to the next header: each line starting with [+] but not
    [+++] as an addition and with [-] but not [---] as a removal, both
    without their first character; every other line not starting with
    [***] or [@@] (so also a line starting with [+++] or [---]) as context,
    verbatim; the lines starting with [***] or [@@] are dropped. *)
Theorem X5_update_hunk_bodies (raw : string) (pre : list string) (segs : list (string * list string))
    (p : parsed_patch) :
  split_nl (replace_crlf raw) = (pre ++ seg_lines segs)%list ->
  Forall (fun l => match_hunk_header l = None) pre ->
  Forall seg_wf segs ->
  parseSimplifiedPatch raw = inr p -> pp_op p = OpUpdate ->
  pp_hunks p = seg_hunks segs /\ length (pp_hunks p) = length segs.
Proof.
  intros Hl Hpre Hs Hp Hop. rewrite (parse_update raw p Hp Hop), Hl, collect_hunks_pre by exact Hpre.
  rewrite collect_hunks_segs by exact Hs. simpl. split; [reflexivity|]. apply seg_hunks_length, Hs.
Qed.

Definition two_segment_update : string :=
  join_nl ["*** Begin Patch"; "*** Update File: a.txt"; "@@ -1,1 +1,2 @@"; "-one"; "+ONE"; "+++x";
           "@@ -3,2 +4,2 @@"; "---y"; " ctx"; "*** End Patch"].

Lemma X5_update_hunk_bodies_witness :
  collect_hunks (split_nl (replace_crlf two_segment_update)) None []
  = [mk_hunk (mk_range 1 1) (mk_range 1 2)
       [mk_hline LRemove "one"; mk_hline LAdd "ONE"; mk_hline LContext "+++x"];
     mk_hunk (mk_range 3 2) (mk_range 4 2)
       [mk_hline LContext "---y"; mk_hline LContext " ctx"]] /\
  length (collect_hunks (split_nl (replace_crlf two_segment_update)) None []) = 2%nat.
Proof.
  apply (X5_update_hunk_bodies two_segment_update ["*** Begin Patch"; "*** Update File: a.txt"]
           [("@@ -1,1 +1,2 @@", ["-one"; "+ONE"; "+++x"]);
            ("@@ -3,2 +4,2 @@", ["---y"; " ctx"; "*** End Patch"])]
           (mk_patch OpUpdate "a.txt" None (collect_hunks (split_nl (replace_crlf two_segment_update)) None [])));
    try (vm_compute; reflexivity).
  - repeat constructor.
  - repeat constructor; unfold seg_wf; simpl; try (eexists; reflexivity); repeat constructor.
Defined.

(* ================================================================= *)
(** ** Error paths of the two endpoints *)

(** X6: a patch whose first line has the begin marker but that has no
    Add/Update/Delete header line, or whose first header names a blank
    path, is answered with [Patch must contain one of Add/Update/Delete
    headers] and leaves the filesystem unchanged. *)
Theorem X6_missing_header (cwd root : string) (patch : jsval) (s : FS) :
  has_begin_marker (split_nl (replace_crlf (patch_text patch))) = true ->
  (find_header (split_nl (replace_crlf (patch_text patch))) = None \/
   exists op, find_header (split_nl (replace_crlf (patch_text patch))) = Some (op, "")) ->
  apply_patch_request cwd root patch s = (RespErr msg_missing_header, s).
Proof.
  intros Hb Hf. unfold apply_patch_request, parseSimplifiedPatch.
  fold (patch_text patch). cbv zeta. rewrite Hb. simpl.
  destruct Hf as [-> | [op ->]]; reflexivity.
Qed.

Lemma X6_missing_header_witness :
  apply_patch_request "/cwd" "/ws" (JStr (join_nl ["*** Begin Patch"; "*** Update File:   "])) ws_fs
  = (RespErr msg_missing_header, ws_fs).
Proof.
  apply X6_missing_header; [vm_compute; reflexivity|].
  right. exists OpUpdate. vm_compute. reflexivity.
Defined.

(** X7: an update of a file that does not exist (inside the root) is
    answered with [File not found for update: <path>], the path as written
    in the header, and leaves the filesystem unchanged. *)
Theorem X7_update_missing_file (cwd root : string) (patch : jsval) (p : parsed_patch)
    (abs : string) (s : FS) :
  parseSimplifiedPatch (patch_text patch) = inr p -> pp_op p = OpUpdate ->
  withinRoot cwd root (pp_path p) = inr abs ->
  fs_files s !! abs = None ->
  apply_patch_request cwd root patch s = (RespErr ("File not found for update: " ++ pp_path p), s).
Proof.
  intros Hp Hop Hw Hn. unfold apply_patch_request. fold (patch_text patch). rewrite Hp.
  unfold applyParsedPatch. rewrite (bind_inr _ _ s abs s) by (rewrite Hw; reflexivity).
  rewrite Hop. unfold bind at 1, catch, fs_readFile. rewrite Hn.
  destruct (decide (abs ∈ fs_dirs s)); reflexivity.
Qed.

Definition upd_b_patch : string :=
  join_nl ["*** Begin Patch"; "*** Update File: b.txt"; "@@ -1,1 +1,1 @@"; "-x"; "+y"; "*** End Patch"].

Lemma X7_update_missing_file_witness :
  apply_patch_request "/cwd" "/ws" (JStr upd_b_patch) ws_fs
  = (RespErr ("File not found for update: " ++ "b.txt"), ws_fs).
Proof.
  apply (X7_update_missing_file "/cwd" "/ws" (JStr upd_b_patch)
           (mk_patch OpUpdate "b.txt" None (collect_hunks (split_nl (replace_crlf upd_b_patch)) None []))
           "/ws/b.txt"); vm_compute; reflexivity.
Defined.

(** X8: when the header's path is refused by [withinRoot], the apply_patch
    request is answered with that error and the filesystem is untouched:
    the containment check runs before any file operation. *)
Theorem X8_apply_patch_refused_untouched (cwd root : string) (patch : jsval) (p : parsed_patch)
    (e : string) (s : FS) :
  parseSimplifiedPatch (patch_text patch) = inr p ->
  withinRoot cwd root (pp_path p) = inl e ->
  apply_patch_request cwd root patch s = (RespErr e, s).
Proof.
  intros Hp Hw. unfold apply_patch_request. fold (patch_text patch). rewrite Hp.
  unfold applyParsedPatch, bind at 1, lift. rewrite Hw. reflexivity.
Qed.

Definition escape_patch : string :=
  join_nl ["*** Begin Patch"; "*** Delete File: ../a.txt"; "*** End Patch"].

Lemma X8_apply_patch_refused_untouched_witness :
  apply_patch_request "/cwd" "/ws/sub" (JStr escape_patch) ws_fs
  = (RespErr ("Refusing to write outside root. rel=" ++ dq ++ "../a.txt" ++ dq ++
              ", root=" ++ dq ++ "/ws/sub" ++ dq), ws_fs).
Proof.
  apply (X8_apply_patch_refused_untouched "/cwd" "/ws/sub" (JStr escape_patch)
           (mk_patch OpDelete "../a.txt" None [])); vm_compute; reflexivity.
Defined.

(** X9: when the path of a rewrite_file request is refused by
    [withinRoot], the request is answered with that error and no directory
    is created and no file written. *)
Theorem X9_rewrite_refused_untouched (cwd root relPath : string) (content : jsval)
    (e : string) (s : FS) :
  trim relPath <> "" ->
  withinRoot cwd root relPath = inl e ->
  rewrite_file_request cwd root (JStr relPath) content s = (RespErr e, s).
Proof.
  intros Ht Hw. unfold rewrite_file_request.
  destruct (String.eqb (trim relPath) "") eqn:E; [apply String.eqb_eq in E; contradiction|].
  unfold rewriteFile, bind at 1, lift. rewrite Hw. reflexivity.
Qed.

Lemma X9_rewrite_refused_untouched_witness :
  rewrite_file_request "/cwd" "/ws" (JStr "/etc/passwd") (JStr "x") ws_fs
  = (RespErr ("Refusing to write outside root. rel=" ++ dq ++ "/etc/passwd" ++ dq ++
              ", root=" ++ dq ++ "/ws" ++ dq), ws_fs).
Proof.
  apply X9_rewrite_refused_untouched; vm_compute; [discriminate | reflexivity].
Defined.

(* ================================================================= *)
(** ** What a request may change *)

Lemma fs_writeFile_frame (p c : string) (s s' : FS) (r : string + unit) :
  fs_writeFile p c s = (r, s') ->
  fs_denied s' = fs_denied s /\ fs_dirs s' = fs_dirs s /\
  (forall q, q <> p -> fs_files s' !! q = fs_files s !! q) /\ (forall e, r = inl e -> s' = s).
Proof.
  unfold fs_writeFile.
  destruct (decide (p ∈ fs_dirs s)); [intros H; injection H as <- <-; repeat split; auto|].
  destruct (decide (dirname p ∉ fs_dirs s)); [intros H; injection H as <- <-; repeat split; auto|].
  destruct (decide (p ∈ fs_denied s)); [intros H; injection H as <- <-; repeat split; auto|].
  intros H; injection H as <- <-. cbn [fs_denied fs_dirs fs_files].
  split; [reflexivity|]. split; [reflexivity|]. split; [|discriminate].
  intros q Hq. rewrite lookup_insert_ne by congruence. reflexivity.
Qed.

Lemma fs_unlink_frame (p : string) (s s' : FS) (r : string + unit) :
  fs_unlink p s = (r, s') ->
  fs_denied s' = fs_denied s /\ fs_dirs s' = fs_dirs s /\
  (forall q, q <> p -> fs_files s' !! q = fs_files s !! q) /\ (forall e, r = inl e -> s' = s).
Proof.
  unfold fs_unlink.
  destruct (decide (p ∈ fs_dirs s)); [intros H; injection H as <- <-; repeat split; auto|].
  destruct (fs_files s !! p); [|intros H; injection H as <- <-; repeat split; auto].
  destruct (decide (p ∈ fs_denied s)); [intros H; injection H as <- <-; repeat split; auto|].
  intros H; injection H as <- <-. cbn [fs_denied fs_dirs fs_files].
  split; [reflexivity|]. split; [reflexivity|]. split; [|discriminate].
  intros q Hq. rewrite lookup_delete_ne by congruence. reflexivity.
Qed.

Lemma mkdir_chain_frame (ds : list string) (s s' : FS) (r : string + unit) :
  mkdir_chain ds s = (r, s') ->
  fs_files s' = fs_files s /\ fs_denied s' = fs_denied s /\ fs_dirs s ⊆ fs_dirs s'.
Proof.
  revert s. induction ds as [|a rest IH]; intros s; simpl.
  - intros H; injection H as <- <-. repeat split; set_solver.
  - destruct (decide (is_Some (fs_files s !! a))); [intros H; injection H as <- <-; repeat split; set_solver|].
    intros H. destruct (IH _ H) as (H1 & H2 & H3). cbn [fs_files fs_denied fs_dirs] in *.
    repeat split; [exact H1 | exact H2 | set_solver].
Qed.

Lemma mkdir_write_frame (abs c : string) (s s' : FS) (r : string + unit) :
  (fs_mkdir_p (dirname abs) ;;; fs_writeFile abs c) s = (r, s') ->
  fs_denied s' = fs_denied s /\ fs_dirs s ⊆ fs_dirs s' /\
  (forall q, q <> abs -> fs_files s' !! q = fs_files s !! q) /\
  (forall e, r = inl e -> fs_files s' = fs_files s).
Proof.
  unfold bind at 1. destruct (fs_mkdir_p (dirname abs) s) as [[e|[]] s1] eqn:Hm;
    destruct (mkdir_chain_frame _ _ _ _ Hm) as (H1 & H2 & H3).
  - intros H; injection H as <- <-. repeat split; auto. intros q _. rewrite H1. reflexivity.
  - intros H. destruct (fs_writeFile_frame _ _ _ _ _ H) as (W1 & W2 & W3 & W4).
    split; [congruence|]. split; [rewrite W2; exact H3|]. split.
    + intros q Hq. rewrite W3 by exact Hq. rewrite H1. reflexivity.
    + intros e' ->. rewrite (W4 e' eq_refl). exact H1.
Qed.

Lemma applyParsedPatch_frame (cwd root : string) (parsed : parsed_patch) (s s' : FS) (r : string + unit) :
  applyParsedPatch cwd root parsed s = (r, s') ->
  fs_denied s' = fs_denied s /\ fs_dirs s ⊆ fs_dirs s' /\
  (forall q, fs_files s' !! q <> fs_files s !! q -> withinRoot cwd root (pp_path parsed) = inr q) /\
  (forall e, r = inl e -> fs_files s' = fs_files s).
Proof.
  unfold applyParsedPatch, bind at 1, lift.
  destruct (withinRoot cwd root (pp_path parsed)) as [e|abs] eqn:Hw.
  { intros H; injection H as <- <-. repeat split; try set_solver; try (intros q Hq; contradiction). }
  assert (Hq : forall q, (q <> abs -> fs_files s' !! q = fs_files s !! q) ->
                 fs_files s' !! q <> fs_files s !! q -> @inr string string abs = inr q).
  { intros q Hfr Hne. destruct (decide (q = abs)) as [->|Hn]; [reflexivity|].
    exfalso. exact (Hne (Hfr Hn)). }
  destruct (pp_op parsed).
  - intros H. destruct (mkdir_write_frame _ _ _ _ _ H) as (H1 & H2 & H3 & H4).
    repeat split; auto; intros q; apply Hq, H3.
  - cbn [ret]. unfold bind at 1, catch.
    destruct (fs_readFile abs s) as [[e|o] s1] eqn:Hr;
      assert (s1 = s) by (unfold fs_readFile in Hr; destruct (fs_files s !! abs);
                           [|destruct (decide _)]; congruence); subst s1.
    + intros H; cbn [throw] in H; injection H as <- <-.
      repeat split; try set_solver; try (intros q Hne; contradiction).
    + intros H. destruct (fs_writeFile_frame _ _ _ _ _ H) as (W1 & W2 & W3 & W4).
      split; [exact W1|]. split; [rewrite W2; set_solver|]. split.
      * intros q. apply Hq, W3.
      * intros e' ->. rewrite (W4 e' eq_refl). reflexivity.
  - cbn [ret]. unfold catch. destruct (fs_unlink abs s) as [[e|[]] s1] eqn:Hu; cbn [ret].
    + apply fs_unlink_fail_state in Hu. subst s1. intros H; injection H as <- <-.
      repeat split; try set_solver; try (intros q Hne; contradiction).
    + intros H; injection H as <- <-. destruct (fs_unlink_frame _ _ _ _ Hu) as (W1 & W2 & W3 & _).
      split; [exact W1|]. split; [rewrite W2; set_solver|]. split; [|discriminate].
      intros q. apply Hq, W3.
Qed.

(** X10: an apply_patch request never removes a directory and changes the
    content of at most one file, the one at the resolved path of the
    patch's header. *)
Theorem X10_apply_patch_frame (cwd root : string) (patch : jsval) (s s' : FS) (resp : response) :
  apply_patch_request cwd root patch s = (resp, s') ->
  fs_dirs s ⊆ fs_dirs s' /\
  (forall q, fs_files s' !! q <> fs_files s !! q ->
     exists p, parseSimplifiedPatch (patch_text patch) = inr p /\ withinRoot cwd root (pp_path p) = inr q).
Proof.
  unfold apply_patch_request. fold (patch_text patch).
  destruct (parseSimplifiedPatch (patch_text patch)) as [e|p] eqn:Hp.
  { intros H; injection H as <- <-. split; [set_solver|]. intros q Hne; contradiction. }
  destruct (applyParsedPatch cwd root p s) as [r s1] eqn:Ha.
  destruct (applyParsedPatch_frame _ _ _ _ _ _ Ha) as (_ & H2 & H3 & _).
  destruct r as [e|u]; intros H; injection H as <- <-; (split; [exact H2|]);
    intros q Hq; exists p; split; [reflexivity | exact (H3 q Hq) | reflexivity | exact (H3 q Hq)].
Qed.

Definition frame_req : response * FS := apply_patch_request "/cwd" "/ws" (JStr e2e_patch) ws_fs.

Lemma X10_apply_patch_frame_witness :
  fs_dirs ws_fs ⊆ fs_dirs (snd frame_req) /\
  (forall q, fs_files (snd frame_req) !! q <> fs_files ws_fs !! q ->
     exists p, parseSimplifiedPatch (patch_text (JStr e2e_patch)) = inr p /\
               withinRoot "/cwd" "/ws" (pp_path p) = inr q).
Proof.
  apply (X10_apply_patch_frame "/cwd" "/ws" (JStr e2e_patch) ws_fs (snd frame_req) (fst frame_req)).
  vm_compute. reflexivity.
Defined.

(** X11: a rewrite_file request never removes a directory and changes the
    content of at most one file, the one at the resolved [path] field. *)
Theorem X11_rewrite_file_frame (cwd root : string) (path content : jsval) (s s' : FS) (resp : response) :
  rewrite_file_request cwd root path content s = (resp, s') ->
  fs_dirs s ⊆ fs_dirs s' /\
  (forall q, fs_files s' !! q <> fs_files s !! q ->
     exists relPath, path = JStr relPath /\ withinRoot cwd root relPath = inr q).
Proof.
  assert (Triv : forall resp', (resp', s) = (resp, s') ->
            fs_dirs s ⊆ fs_dirs s' /\
            (forall q, fs_files s' !! q <> fs_files s !! q ->
               exists relPath, path = JStr relPath /\ withinRoot cwd root relPath = inr q)).
  { intros resp' H; injection H as <- <-. split; [set_solver|]. intros q Hq; contradiction. }
  unfold rewrite_file_request. destruct path as [| | | |relPath]; try apply Triv.
  destruct (String.eqb (trim relPath) ""); [apply Triv|].
  unfold rewriteFile at 1, bind at 1, lift.
  destruct (withinRoot cwd root relPath) as [e|abs] eqn:Hw; [apply Triv|].
  cbn [ret]. set (c := match content with JStr c => c | _ => "" end).
  destruct ((fs_mkdir_p (dirname abs) ;;; fs_writeFile abs c) s) as [r s1] eqn:Hm.
  destruct (mkdir_write_frame _ _ _ _ _ Hm) as (_ & H2 & H3 & _).
  assert (Hx : forall q, fs_files s1 !! q <> fs_files s !! q ->
                 exists relPath', JStr relPath = JStr relPath' /\ withinRoot cwd root relPath' = inr q).
  { intros q Hq. exists relPath. split; [reflexivity|]. rewrite Hw.
    destruct (decide (q = abs)) as [->|Hn]; [reflexivity|]. exfalso. exact (Hq (H3 q Hn)). }
  destruct r as [e|u]; intros H; injection H as <- <-; split; [exact H2|exact Hx|exact H2|exact Hx].
Qed.

Definition rewrite_req : response * FS :=
  rewrite_file_request "/cwd" "/ws" (JStr "new/dir/b.txt") (JStr "hello") ws_fs.

Lemma X11_rewrite_file_frame_witness :
  fs_dirs ws_fs ⊆ fs_dirs (snd rewrite_req) /\
  (forall q, fs_files (snd rewrite_req) !! q <> fs_files ws_fs !! q ->
     exists relPath, JStr "new/dir/b.txt" = JStr relPath /\ withinRoot "/cwd" "/ws" relPath = inr q).
Proof.
  apply (X11_rewrite_file_frame "/cwd" "/ws" (JStr "new/dir/b.txt") (JStr "hello") ws_fs
           (snd rewrite_req) (fst rewrite_req)).
  vm_compute. reflexivity.
Defined.

(* ================================================================= *)
(** ** Paths that stay below the root *)

(** A segment [path.resolve] keeps: non-empty, no slash, not [.] or [..]. *)
Definition seg_good (x : string) : Prop := seg_ok x /\ x <> "." /\ x <> "..".

(** The segments [normalizeString] drops when there is no [..]. *)
Definition keep_seg (x : string) : bool := negb (String.eqb x "" || String.eqb x ".").

Lemma split_on_app_sep (c : ascii) (a b : string) :
  split_on c (a ++ String c b) = (split_on c a ++ split_on c b)%list.
Proof.
  induction a as [|x a IH].
  - change (EmptyString ++ String c b) with (String c b). rewrite split_on_sep. reflexivity.
  - change (String x a ++ String c b) with (String x (a ++ String c b)). simpl.
    rewrite IH. destruct (Ascii.eqb x c); [reflexivity|].
    destruct (split_on c a) as [|h t] eqn:E; [exfalso; exact (split_on_nonempty c a E)|].
    reflexivity.
Qed.

Lemma norm_segs_app (al : bool) (acc xs ys : list string) :
  norm_segs al acc (xs ++ ys)%list = norm_segs al (norm_segs al acc xs) ys.
Proof.
  revert acc. induction xs as [|x xs IH]; intros acc; [reflexivity|]. simpl.
  destruct (String.eqb x "" || String.eqb x "."); [apply IH|].
  destruct (String.eqb x ".."); [|apply IH].
  destruct acc as [|y acc']; [apply IH|]. destruct (String.eqb y ".."); apply IH.
Qed.

Lemma norm_segs_no_up (al : bool) (acc xs : list string) :
  Forall (fun x => x <> "..") xs ->
  norm_segs al acc xs = (rev (List.filter keep_seg xs) ++ acc)%list.
Proof.
  intros H. revert acc. induction H as [|x xs Hx _ IH]; intros acc; [reflexivity|].
  simpl. unfold keep_seg at 1.
  destruct (String.eqb x "" || String.eqb x "."); simpl; [apply IH|].
  apply String.eqb_neq in Hx. rewrite Hx, IH. simpl. rewrite <- app_assoc. reflexivity.
Qed.

Lemma norm_segs_good (acc segs : list string) :
  Forall seg_good acc -> Forall (fun x => has_char ch_slash x = false) segs ->
  Forall seg_good (norm_segs false acc segs).
Proof.
  revert acc. induction segs as [|s rest IH]; intros acc Ha Hs; [exact Ha|].
  inversion Hs as [|? ? Hs1 Hs2]; subst. simpl.
  destruct (String.eqb s "" || String.eqb s ".") eqn:E1; [apply IH; assumption|].
  destruct (String.eqb s "..") eqn:E2.
  - destruct acc as [|x acc']; [apply IH; [constructor | assumption]|].
    inversion Ha; subst.
    destruct (String.eqb x ".."); apply IH; assumption.
  - apply IH; [|assumption]. constructor; [|assumption].
    apply orb_false_iff in E1 as [E1 E1']. apply String.eqb_neq in E1, E1', E2.
    split; [split; assumption|]. split; assumption.
Qed.

Lemma seg_good_ok (ys : list string) : Forall seg_good ys -> Forall seg_ok ys.
Proof. intros H. eapply Forall_impl; [exact H|]. intros x [Hx _]. exact Hx. Qed.

(** With an absolute working directory, [path.resolve] returns ["/"]
    followed by segments that are non-empty, slash-free and not [.] or [..]. *)
Lemma resolve_shape_good (cwd : string) (args : list string) :
  is_abs cwd = true ->
  exists ys, resolve cwd args = "/" ++ join_with "/" ys /\ Forall seg_good ys.
Proof.
  intros Hc. unfold resolve.
  assert (Hn : forall acc, exists ys,
    "/" ++ normalize_string acc (negb true) = "/" ++ join_with "/" ys /\ Forall seg_good ys).
  { intros acc. exists (rev (norm_segs false [] (split_on ch_slash acc))). split; [reflexivity|].
    apply Forall_rev, norm_segs_good; [constructor | apply split_on_free]. }
  destruct (resolve_go (rev args) "") as [acc [|]]; [apply Hn|].
  destruct (String.eqb cwd "") eqn:E.
  - apply String.eqb_eq in E. subst cwd. discriminate.
  - rewrite Hc. apply Hn.
Qed.

Lemma keep_all (ys : list string) : Forall seg_good ys -> List.filter keep_seg ys = ys.
Proof.
  intros H. induction H as [|y ys [[Hy _] [Hd _]] _ IH]; [reflexivity|]. simpl.
  unfold keep_seg at 1. apply String.eqb_neq in Hy, Hd. rewrite Hy, Hd. simpl. rewrite IH. reflexivity.
Qed.

Lemma seg_good_not_up (ys : list string) : Forall seg_good ys -> Forall (fun x => x <> "..") ys.
Proof. intros H. eapply Forall_impl; [exact H|]. intros x [_ [_ Hx]]. exact Hx. Qed.

Lemma norm_root_form (ys : list string) :
  Forall seg_good ys -> norm_segs false [] (split_on ch_slash ("/" ++ join_with "/" ys)) = rev ys.
Proof.
  intros Hf. change ("/" ++ join_with "/" ys) with (String ch_slash (join_with (str1 ch_slash) ys)).
  rewrite split_on_sep. destruct ys as [|y t]; [reflexivity|].
  rewrite split_join by (discriminate || exact (Forall_seg_free _ (seg_good_ok _ Hf))).
  rewrite (norm_segs_no_up false [] ("" :: y :: t)).
  - change (List.filter keep_seg ("" :: y :: t)) with (List.filter keep_seg (y :: t)).
    rewrite keep_all by exact Hf. apply app_nil_r.
  - constructor; [discriminate | exact (seg_good_not_up _ Hf)].
Qed.

Lemma ends_with_slash_root_form (ys : list string) :
  ys <> [] -> Forall seg_ok ys -> ends_with_slash ("/" ++ join_with "/" ys) = false.
Proof.
  intros Hne Hf. destruct (exists_last Hne) as [ys' [y ->]].
  apply Forall_app in Hf as [_ Hy]. inversion Hy as [|? ? [Hy1 Hy2] _]; subst.
  pose proof (has_char_false_Forall _ _ Hy2) as Hyc.
  unfold ends_with_slash. rewrite join_snoc.
  assert (Hl : exists pre, list_ascii_of_string ("/" ++ match ys' with [] => y | _ => join_with "/" ys' ++ "/" ++ y end)
                          = (pre ++ list_ascii_of_string y)%list).
  { destruct ys'.
    - exists [ch_slash]. reflexivity.
    - exists (ch_slash :: list_ascii_of_string (join_with "/" (s :: ys')) ++ [ch_slash])%list.
      change (list_ascii_of_string ("/" ++ ?t)) with (ch_slash :: list_ascii_of_string t).
      rewrite list_ascii_of_string_app. change (list_ascii_of_string ("/" ++ y)) with (ch_slash :: list_ascii_of_string y).
      simpl. rewrite <- app_assoc. reflexivity. }
  destruct Hl as [pre ->]. rewrite rev_app_distr.
  destruct y as [|c r]; [contradiction|]. simpl list_ascii_of_string. simpl rev.
  inversion Hyc as [|? ? Hc Hr]; subst.
  destruct (rev (list_ascii_of_string r)) as [|c' r'] eqn:Er.
  - simpl. destruct (Ascii.eqb c ch_slash) eqn:E; [apply Ascii.eqb_eq in E; contradiction | reflexivity].
  - simpl. assert (Hc' : In c' (list_ascii_of_string r)).
    { apply in_rev. rewrite Er. left. reflexivity. }
    rewrite List.Forall_forall in Hr. specialize (Hr c' Hc').
    destruct (Ascii.eqb c' ch_slash) eqn:E; [apply Ascii.eqb_eq in E; contradiction | reflexivity].
Qed.

(** [path.normalize] leaves a resolved path as it is. *)
Lemma normalize_root_form (ys : list string) :
  Forall seg_good ys -> normalize ("/" ++ join_with "/" ys) = "/" ++ join_with "/" ys.
Proof.
  intros Hf. unfold normalize, normalize_string.
  change (String.eqb ("/" ++ join_with "/" ys) "") with false.
  change (is_abs ("/" ++ join_with "/" ys)) with true. cbv beta iota zeta.
  rewrite norm_root_form, rev_involutive by exact Hf.
  destruct ys as [|y t]; [reflexivity|].
  pose proof (seg_ok_join_nonempty (y :: t) ltac:(discriminate) (seg_good_ok _ Hf)) as Hj.
  apply String.eqb_neq in Hj. rewrite Hj.
  rewrite ends_with_slash_root_form by (discriminate || exact (seg_good_ok _ Hf)). reflexivity.
Qed.

(** [path.resolve] gives a resolved path back unchanged. *)
Lemma resolve_root_form (cwd : string) (ys : list string) :
  Forall seg_good ys -> resolve cwd ["/" ++ join_with "/" ys] = "/" ++ join_with "/" ys.
Proof.
  intros Hf. unfold resolve. simpl rev.
  change (resolve_go ["/" ++ join_with "/" ys] "") with
    (("/" ++ join_with "/" ys) ++ "/" ++ "", true). cbv beta iota.
  unfold normalize_string. change (negb true) with false.
  change (("/" ++ join_with "/" ys) ++ "/" ++ "") with (("/" ++ join_with "/" ys) ++ String ch_slash "").
  rewrite split_on_app_sep, norm_segs_app, norm_root_form by exact Hf.
  simpl norm_segs. rewrite rev_involutive. reflexivity.
Qed.

Lemma to_lower_app (a b : string) : to_lower (a ++ b) = to_lower a ++ to_lower b.
Proof.
  induction a as [|c a IH]; [reflexivity|].
  change (String c a ++ b) with (String c (a ++ b)). cbn [to_lower]. rewrite IH. reflexivity.
Qed.

Lemma prefix_app (a b : string) : starts_with a (a ++ b) = true.
Proof.
  unfold starts_with. induction a as [|c a IH]; [destruct b; reflexivity|].
  change (String c a ++ b) with (String c (a ++ b)). simpl.
  destruct (ascii_dec c c); [exact IH | contradiction].
Qed.

Lemma prefix_root_form (ys zs : list string) :
  starts_with (to_lower ("/" ++ join_with "/" ys)) (to_lower ("/" ++ join_with "/" (ys ++ zs)%list)) = true.
Proof.
  destruct (join_firstn_prefix "/" (ys ++ zs)%list (length ys)) as [r Hr].
  rewrite List.firstn_app, List.firstn_all, Nat.sub_diag, List.firstn_O, app_nil_r in Hr.
  rewrite Hr, <- str_app_assoc, (to_lower_app ("/" ++ join_with "/" ys) r). apply prefix_app.
Qed.

(** [path.resolve(ROOT, rel)] for a resolved [ROOT] and a relative [rel]
    without [..] segments. *)
Lemma resolve_below (cwd : string) (ys : list string) (rel : string) :
  Forall seg_good ys -> rel <> "" -> is_abs rel = false ->
  Forall (fun x => x <> "..") (split_on ch_slash rel) ->
  resolve cwd ["/" ++ join_with "/" ys; rel]
  = "/" ++ join_with "/" (ys ++ List.filter keep_seg (split_on ch_slash rel))%list.
Proof.
  intros Hf Hne Habs Hup.
  assert (Hg : resolve_go (rev ["/" ++ join_with "/" ys; rel]) ""
               = (("/" ++ join_with "/" ys) ++ "/" ++ (rel ++ "/" ++ ""), true)).
  { simpl rev. simpl resolve_go. apply String.eqb_neq in Hne. rewrite Hne, Habs. reflexivity. }
  unfold resolve. rewrite Hg. cbv beta iota. f_equal.
  unfold normalize_string. change (negb true) with false.
  change (("/" ++ join_with "/" ys) ++ "/" ++ (rel ++ "/" ++ ""))
    with (("/" ++ join_with "/" ys) ++ String ch_slash (rel ++ String ch_slash "")).
  rewrite !split_on_app_sep, !norm_segs_app, norm_root_form by exact Hf.
  rewrite (norm_segs_no_up false _ (split_on ch_slash rel) Hup).
  change (split_on ch_slash "") with [EmptyString]. simpl norm_segs.
  rewrite rev_app_distr, !rev_involutive. reflexivity.
Qed.

Lemma kept_segs_good (rel : string) :
  Forall (fun x => x <> "..") (split_on ch_slash rel) ->
  Forall seg_good (List.filter keep_seg (split_on ch_slash rel)).
Proof.
  intros Hup. pose proof (split_on_free ch_slash rel) as Hfree.
  rewrite List.Forall_forall in *. intros x Hx. apply filter_In in Hx as [Hin Hk].
  unfold keep_seg in Hk. apply negb_true_iff, orb_false_iff in Hk as [H1 H2].
  apply String.eqb_neq in H1, H2.
  split; [split; [exact H1 | exact (Hfree x Hin)]|]. split; [exact H2 | exact (Hup x Hin)].
Qed.

Lemma withinRoot_below (cwd root rel relPath : string) (ys : list string) :
  resolve cwd [root] = "/" ++ join_with "/" ys -> Forall seg_good ys ->
  (if String.eqb (trim relPath) "" then "." else relPath) = rel ->
  rel <> "" -> is_abs rel = false -> Forall (fun x => x <> "..") (split_on ch_slash rel) ->
  withinRoot cwd root relPath = inr ("/" ++ join_with "/" (ys ++ List.filter keep_seg (split_on ch_slash rel))%list).
Proof.
  intros HR Hg Hrel Hne Habs Hup. unfold withinRoot. rewrite HR, Hrel.
  rewrite resolve_below by assumption.
  assert (Hall : Forall seg_good (ys ++ List.filter keep_seg (split_on ch_slash rel))%list)
    by (apply Forall_app; split; [exact Hg | exact (kept_segs_good rel Hup)]).
  rewrite !normalize_root_form by assumption. rewrite prefix_root_form. reflexivity.
Qed.

(** X12: with an absolute working directory, [withinRoot] accepts every
    non-blank relative path none of whose [/]-separated segments is [..],
    and returns the resolved root followed by the path's segments that
    are neither empty nor [.]. *)
Theorem X12_withinRoot_accepts_downward (cwd root relPath : string) :
  is_abs cwd = true -> trim relPath <> "" -> is_abs relPath = false ->
  Forall (fun x => x <> "..") (split_on ch_slash relPath) ->
  exists ys, resolve cwd [root] = "/" ++ join_with "/" ys /\
    withinRoot cwd root relPath
    = inr ("/" ++ join_with "/" (ys ++ List.filter keep_seg (split_on ch_slash relPath))%list).
Proof.
  intros Hc Ht Habs Hup. destruct (resolve_shape_good cwd [root] Hc) as [ys [HR Hg]].
  exists ys. split; [exact HR|]. apply (withinRoot_below cwd root relPath relPath ys HR Hg); try assumption.
  - apply String.eqb_neq in Ht. rewrite Ht. reflexivity.
  - intros ->. apply Ht. reflexivity.
Qed.

Lemma X12_withinRoot_accepts_downward_witness :
  exists ys, resolve "/cwd" ["proj"] = "/" ++ join_with "/" ys /\
    withinRoot "/cwd" "proj" "src/./lib//a.ts"
    = inr ("/" ++ join_with "/" (ys ++ List.filter keep_seg (split_on ch_slash "src/./lib//a.ts"))%list).
Proof.
  apply X12_withinRoot_accepts_downward; [reflexivity | vm_compute; discriminate | reflexivity |].
  vm_compute. repeat constructor; discriminate.
Defined.

(** X13: with an absolute working directory, a blank path (empty or only
    white space) is accepted by [withinRoot] and resolves to the root
    itself. *)
Theorem X13_withinRoot_blank_is_root (cwd root relPath : string) :
  is_abs cwd = true -> trim relPath = "" ->
  withinRoot cwd root relPath = inr (resolve cwd [root]).
Proof.
  intros Hc Ht. destruct (resolve_shape_good cwd [root] Hc) as [ys [HR Hg]].
  rewrite (withinRoot_below cwd root "." relPath ys HR Hg); try (reflexivity || discriminate).
  - rewrite HR. simpl List.filter. rewrite app_nil_r. reflexivity.
  - rewrite Ht. reflexivity.
  - repeat constructor. discriminate.
Qed.

Lemma X13_withinRoot_blank_is_root_witness :
  withinRoot "/cwd" "../ws" "  " = inr (resolve "/cwd" ["../ws"]).
Proof. apply X13_withinRoot_blank_is_root; reflexivity. Defined.

(** [defaultGetRoot()]: [path.resolve(process.env.MCP_ROOT_DIR || process.cwd())],
    with [MCP_ROOT_DIR] absent ([None]) or set. *)
Definition defaultGetRoot (cwd : string) (MCP_ROOT_DIR : option string) : string :=
  resolve cwd [match MCP_ROOT_DIR with
               | Some v => if String.eqb v "" then cwd else v
               | None => cwd
               end].

(** X14: with an absolute working directory the default root is ["/"]
    followed by segments that are non-empty, slash-free and not [.] or
    [..]; [path.resolve] and [path.normalize], as [withinRoot] applies
    them to it, give it back unchanged. *)
Theorem X14_default_root_resolved (cwd : string) (MCP_ROOT_DIR : option string) :
  is_abs cwd = true ->
  (exists ys, defaultGetRoot cwd MCP_ROOT_DIR = "/" ++ join_with "/" ys /\ Forall seg_good ys) /\
  (forall cwd', resolve cwd' [defaultGetRoot cwd MCP_ROOT_DIR] = defaultGetRoot cwd MCP_ROOT_DIR) /\
  normalize (defaultGetRoot cwd MCP_ROOT_DIR) = defaultGetRoot cwd MCP_ROOT_DIR.
Proof.
  intros Hc. destruct (resolve_shape_good cwd [match MCP_ROOT_DIR with
               | Some v => if String.eqb v "" then cwd else v | None => cwd end] Hc) as [ys [H Hg]].
  fold (defaultGetRoot cwd MCP_ROOT_DIR) in H. rewrite H.
  split; [exists ys; split; [reflexivity | exact Hg]|]. split.
  - intros cwd'. apply resolve_root_form, Hg.
  - apply normalize_root_form, Hg.
Qed.

Lemma X14_default_root_resolved_witness :
  (exists ys, defaultGetRoot "/home/u" (Some "../srv/./proj/") = "/" ++ join_with "/" ys /\ Forall seg_good ys) /\
  (forall cwd', resolve cwd' [defaultGetRoot "/home/u" (Some "../srv/./proj/")]
                = defaultGetRoot "/home/u" (Some "../srv/./proj/")) /\
  normalize (defaultGetRoot "/home/u" (Some "../srv/./proj/")) = defaultGetRoot "/home/u" (Some "../srv/./proj/").
Proof. apply X14_default_root_resolved. reflexivity. Defined.

(* ================================================================= *)
(** ** Successful requests *)

Lemma add_request_effect (cwd root : string) (patch : jsval) (p : parsed_patch) (abs : string) (s : FS) :
  is_abs cwd = true -> "/" ∈ fs_dirs s ->
  parseSimplifiedPatch (patch_text patch) = inr p -> pp_op p = OpAdd ->
  withinRoot cwd root (pp_path p) = inr abs ->
  Forall (fun a => fs_files s !! a = None) (ancestors (dirname abs)) ->
  abs ∉ fs_dirs s -> abs ∉ fs_denied s ->
  apply_patch_request cwd root patch s
  = (RespOk (pp_path p) "add",
     mk_fs (<[abs := add_content (split_nl (replace_crlf (patch_text patch)))]> (fs_files s))
           (list_to_set (ancestors (dirname abs)) ∪ fs_dirs s) (fs_denied s)).
Proof.
  intros Hc Hroot Hp Hop Hw Hanc Hd Hden.
  destruct (withinRoot_inr cwd root (pp_path p) abs Hw) as [rel Habs].
  pose proof (parse_add _ p Hp Hop) as Hnc.
  unfold apply_patch_request. fold (patch_text patch). rewrite Hp.
  unfold applyParsedPatch. rewrite (bind_inr _ _ s abs s) by (rewrite Hw; reflexivity).
  rewrite Hop, Hnc. subst abs.
  destruct (mkdir_write_resolved cwd [resolve cwd [root]; rel]
              (add_content (split_nl (replace_crlf (patch_text patch)))) s Hc Hroot Hanc Hd Hden)
    as [_ Hrun].
  rewrite Hrun. reflexivity.
Qed.


(** X15: an Add inside the root answers [{ok:true, path, op:"add"}],
    creates every missing parent directory and writes the parsed content
    (the [+] lines without their [+], each followed by a newline),
    replacing any file already there. The working directory is absolute,
    ["/"] exists, no file stands where a parent directory goes, and the
    target is neither a directory nor write-protected. *)
Theorem X15_add_request (cwd root : string) (patch : jsval) (p : parsed_patch) (abs : string) (s : FS) :
  is_abs cwd = true -> "/" ∈ fs_dirs s ->
  parseSimplifiedPatch (patch_text patch) = inr p -> pp_op p = OpAdd ->
  withinRoot cwd root (pp_path p) = inr abs ->
  Forall (fun a => fs_files s !! a = None) (ancestors (dirname abs)) ->
  abs ∉ fs_dirs s -> abs ∉ fs_denied s ->
  apply_patch_request cwd root patch s
  = (RespOk (pp_path p) "add",
     mk_fs (<[abs := add_content (split_nl (replace_crlf (patch_text patch)))]> (fs_files s))
           (list_to_set (ancestors (dirname abs)) ∪ fs_dirs s) (fs_denied s)).
Proof.
  intros Hc Hroot Hp Hop Hw Hanc Hd Hden.
  exact (add_request_effect cwd root patch p abs s Hc Hroot Hp Hop Hw Hanc Hd Hden).
Qed.

Definition add_nested_patch : string :=
  join_nl ["*** Begin Patch"; "*** Add File: new/dir/b.txt"; "+hello"; "+world"; "*** End Patch"].

Lemma X15_add_request_witness :
  apply_patch_request "/cwd" "/ws" (JStr add_nested_patch) ws_fs
  = (RespOk "new/dir/b.txt" "add",
     mk_fs (<["/ws/new/dir/b.txt" := add_content (split_nl (replace_crlf (patch_text (JStr add_nested_patch))))]>
              (fs_files ws_fs))
           (list_to_set (ancestors (dirname "/ws/new/dir/b.txt")) ∪ fs_dirs ws_fs) (fs_denied ws_fs)).
Proof.
  apply (X15_add_request "/cwd" "/ws" (JStr add_nested_patch)
           (mk_patch OpAdd "new/dir/b.txt" (Some (add_content (split_nl (replace_crlf add_nested_patch)))) [])
           "/ws/new/dir/b.txt" ws_fs).
  - reflexivity.
  - unfold ws_fs. simpl. set_solver.
  - vm_compute. reflexivity.
  - reflexivity.
  - vm_compute. reflexivity.
  - vm_compute. repeat constructor.
  - unfold ws_fs. simpl. set_solver.
  - unfold ws_fs. simpl. set_solver.
Defined.

(* ================================================================= *)
(** ** Hunk headers written with [String(n)] are read back *)

Definition all_digits (d : string) : bool := forallb is_digit (list_ascii_of_string d).

Definition starts_non_digit (r : string) : bool :=
  match r with String c _ => negb (is_digit c) | EmptyString => true end.

Lemma substring_0_all (s : string) (m : nat) : String.length s <= m -> String.substring 0 m s = s.
Proof.
  revert m. induction s as [|c s IH]; intros m Hm; [destruct m; reflexivity|].
  destruct m as [|m]; [simpl in Hm; lia|]. simpl. rewrite IH by (simpl in Hm; lia). reflexivity.
Qed.

Lemma substring_skip (p s : string) (m : nat) :
  String.substring (String.length p) m (p ++ s) = String.substring 0 m s.
Proof.
  induction p as [|c p IH]; [reflexivity|].
  change (String c p ++ s) with (String c (p ++ s)). simpl. exact IH.
Qed.

Lemma expect_app (p s : string) : expect p (p ++ s) = Some s.
Proof.
  unfold expect. pose proof (prefix_app p s) as H. unfold starts_with in H. rewrite H.
  rewrite substring_skip, substring_0_all; [reflexivity|]. rewrite str_length_app. lia.
Qed.

Lemma digit_char (k : N) : (k < 10)%N ->
  is_digit (ascii_of_N (48 + k)) = true /\ (nat_of_ascii (ascii_of_N (48 + k)) - 48 = N.to_nat k)%nat.
Proof.
  intros Hk. unfold is_digit, nat_of_ascii. rewrite N_ascii_embedding by lia.
  rewrite N2Nat.inj_add. change (N.to_nat 48) with 48%nat.
  assert (N.to_nat k < 10)%nat by lia.
  split; [apply andb_true_iff; split; apply Nat.leb_le; lia | lia].
Qed.

Lemma take_digits_app (d r : string) :
  all_digits d = true -> starts_non_digit r = true -> take_digits (d ++ r) = (d, r).
Proof.
  unfold all_digits. induction d as [|c d IH]; intros Hd Hr.
  - change (EmptyString ++ r) with r. destruct r as [|c r]; [reflexivity|].
    simpl in Hr. simpl. apply negb_true_iff in Hr. rewrite Hr. reflexivity.
  - simpl in Hd. apply andb_true_iff in Hd as [Hc Hd].
    change (String c d ++ r) with (String c (d ++ r)). simpl. rewrite Hc, IH by assumption. reflexivity.
Qed.

Lemma digits_value_app (acc : Z) (x y : string) :
  digits_value_acc acc (x ++ y) = digits_value_acc (digits_value_acc acc x) y.
Proof.
  revert acc. induction x as [|c x IH]; intros acc; [reflexivity|].
  change (String c x ++ y) with (String c (x ++ y)). simpl. apply IH.
Qed.

Lemma pos_digits_shape (f : nat) (n : N) (acc : string) :
  exists d, pos_digits f n acc = d ++ acc /\ all_digits d = true /\ (f <> O -> d <> "").
Proof.
  revert n acc. induction f as [|f IH]; intros n acc.
  - exists "". split; [reflexivity|]. split; [reflexivity|]. intros H; contradiction.
  - assert (Hk : (n mod 10 < 10)%N) by (apply N.mod_lt; lia).
    destruct (digit_char _ Hk) as [Hdig _]. simpl.
    destruct (N.ltb n 10).
    + exists (str1 (ascii_of_N (48 + n mod 10))). split; [reflexivity|].
      split; [unfold all_digits; simpl; rewrite Hdig; reflexivity | discriminate].
    + destruct (IH (n / 10)%N (String (ascii_of_N (48 + n mod 10)) acc)) as [d [Hd [Ha _]]].
      exists (d ++ str1 (ascii_of_N (48 + n mod 10))). rewrite Hd, str_app_assoc.
      split; [reflexivity|]. split.
      * unfold all_digits in *. rewrite list_ascii_of_string_app, forallb_app, Ha. simpl.
        rewrite Hdig. reflexivity.
      * intros _ He. apply (f_equal String.length) in He. rewrite str_length_app in He.
        simpl in He. lia.
Qed.

Lemma pos_digits_value (f : nat) (n : N) (acc : string) :
  (Z.of_N n < 10 ^ Z.of_nat f)%Z ->
  digits_value (pos_digits f n acc) = digits_value_acc (Z.of_N n) acc.
Proof.
  revert n acc. induction f as [|f IH]; intros n acc Hn.
  - simpl in Hn. assert (n = 0%N) as -> by lia. reflexivity.
  - assert (Hk : (n mod 10 < 10)%N) by (apply N.mod_lt; lia).
    destruct (digit_char _ Hk) as [_ Hv].
    assert (Hdm : Z.of_N n = (10 * (Z.of_N n / 10) + Z.of_N n mod 10)%Z)
      by (apply Z.div_mod; lia).
    simpl. destruct (N.ltb n 10) eqn:Hlt.
    + unfold digits_value. simpl. rewrite Hv, N_nat_Z, N2Z.inj_mod.
      apply N.ltb_lt in Hlt. rewrite (Z.mod_small (Z.of_N n)) by lia. reflexivity.
    + rewrite IH.
      * simpl. rewrite Hv, N_nat_Z, N2Z.inj_mod, N2Z.inj_div. f_equal. simpl. lia.
      * rewrite N2Z.inj_div. apply Z.div_lt_upper_bound; [lia|].
        rewrite Nat2Z.inj_succ, Z.pow_succ_r in Hn by lia. simpl. lia.
Qed.

Lemma size_nat_bound (n : N) : (Z.of_N n < 10 ^ Z.of_nat (S (N.size_nat n)))%Z.
Proof.
  assert (H2 : (Z.of_N n < 2 ^ Z.of_nat (N.size_nat n))%Z).
  { destruct n as [|p]; [simpl; lia|]. simpl.
    induction p as [p IH|p IH|]; simpl Pos.size_nat; rewrite ?Nat2Z.inj_succ, ?Z.pow_succ_r by lia;
      [rewrite Pos2Z.inj_xI | rewrite Pos2Z.inj_xO | simpl]; lia. }
  assert (H10 : (2 ^ Z.of_nat (N.size_nat n) <= 10 ^ Z.of_nat (N.size_nat n))%Z)
    by (apply Z.pow_le_mono_l; lia).
  assert (Hs : (10 ^ Z.of_nat (N.size_nat n) < 10 ^ Z.of_nat (S (N.size_nat n)))%Z)
    by (apply Z.pow_lt_mono_r; lia).
  lia.
Qed.

Lemma number_tok_js_String (z : Z) (r : string) :
  (0 <= z)%Z -> starts_non_digit r = true -> number_tok (js_String (JNum z) ++ r) = Some (z, r).
Proof.
  intros Hz Hr. unfold js_String.
  replace (z <? 0)%Z with false by (symmetry; apply Z.ltb_ge; exact Hz).
  change ("" ++ ?x) with x.
  destruct (pos_digits_shape (S (N.size_nat (Z.abs_N z))) (Z.abs_N z) "") as [d [Hd [Ha Hne]]].
  pose proof (pos_digits_value (S (N.size_nat (Z.abs_N z))) (Z.abs_N z) "" (size_nat_bound _)) as Hv.
  rewrite Hd, str_app_nil_r in *. unfold number_tok. rewrite take_digits_app by assumption.
  specialize (Hne ltac:(discriminate)). apply String.eqb_neq in Hne. rewrite Hne.
  rewrite Hv. simpl. rewrite N2Z.inj_abs_N, Z.abs_eq by exact Hz. reflexivity.
Qed.

(** X17: a hunk header written with [String(n)] from non-negative safe
    integers, below 2^53 ([`@@ -${a},${b} +${c},${d} @@`], followed by
    anything), is matched by the hunk header regex and gives back the four
    numbers. *)
Theorem X17_hunk_header_round_trip (a b c d : Z) (tail : string) :
  (0 <= a < 2 ^ 53)%Z -> (0 <= b < 2 ^ 53)%Z -> (0 <= c < 2 ^ 53)%Z -> (0 <= d < 2 ^ 53)%Z ->
  match_hunk_header ("@@ -" ++ js_String (JNum a) ++ "," ++ js_String (JNum b) ++ " +" ++
                     js_String (JNum c) ++ "," ++ js_String (JNum d) ++ " @@" ++ tail)
  = Some (a, b, c, d).
Proof.
  intros [Ha _] [Hb _] [Hc _] [Hd _]. unfold match_hunk_header.
  assert (Hs : forall (A B : Type) (x : A) (f : A -> option B), (Some x ≫= f) = f x) by reflexivity.
  rewrite expect_app, Hs. cbv beta iota.
  rewrite number_tok_js_String by (reflexivity || exact Ha). rewrite Hs. cbv beta iota.
  rewrite expect_app, Hs. cbv beta iota.
  rewrite number_tok_js_String by (reflexivity || exact Hb). rewrite Hs. cbv beta iota.
  rewrite expect_app, Hs. cbv beta iota.
  rewrite number_tok_js_String by (reflexivity || exact Hc). rewrite Hs. cbv beta iota.
  rewrite expect_app, Hs. cbv beta iota.
  rewrite number_tok_js_String by (reflexivity || exact Hd). rewrite Hs. cbv beta iota.
  rewrite expect_app. reflexivity.
Qed.

Lemma X17_hunk_header_round_trip_witness :
  match_hunk_header ("@@ -" ++ js_String (JNum 120) ++ "," ++ js_String (JNum 0) ++ " +" ++
                     js_String (JNum 7) ++ "," ++ js_String (JNum 1024) ++ " @@" ++ " f()")
  = Some (120, 0, 7, 1024)%Z.
Proof. apply X17_hunk_header_round_trip; split; (lia || (vm_compute; reflexivity)). Defined.

(* ================================================================= *)
(** ** A [patch] field that is not a string *)

Lemma includes_no_char (x : ascii) (p s : string) :
  has_char x s = false -> includes (String x p) s = false.
Proof.
  induction s as [|c r IH]; intros H; [reflexivity|].
  simpl in H. apply orb_false_iff in H as [Hc Hr].
  cbn [includes]. rewrite (IH Hr), orb_false_r. simpl.
  destruct (ascii_dec x c) as [->|]; [rewrite Ascii.eqb_refl in Hc; discriminate | reflexivity].
Qed.

Lemma replace_crlf_id (t : string) : has_char ch_cr t = false -> replace_crlf t = t.
Proof.
  induction t as [|c r IH]; intros H; [reflexivity|].
  simpl in H. apply orb_false_iff in H as [Hc Hr]. simpl. rewrite Hc, IH by exact Hr. reflexivity.
Qed.

Lemma split_on_first_no_char (x sep : ascii) (t : string) :
  has_char x t = false -> has_char x (hd "" (split_on sep t)) = false.
Proof.
  induction t as [|c r IH]; intros H; [reflexivity|].
  simpl in H. apply orb_false_iff in H as [Hc Hr]. simpl.
  destruct (Ascii.eqb c sep); [reflexivity|].
  specialize (IH Hr). destruct (split_on sep r) as [|h tl]; simpl in *; rewrite Hc; [reflexivity | exact IH].
Qed.

Lemma all_digits_no_char (x : ascii) (d : string) :
  is_digit x = false -> all_digits d = true -> has_char x d = false.
Proof.
  unfold all_digits. intros Hx. induction d as [|c r IH]; intros H; [reflexivity|].
  simpl in H. apply andb_true_iff in H as [Hc Hr]. simpl. rewrite (IH Hr), orb_false_r.
  destruct (Ascii.eqb c x) eqn:E; [apply Ascii.eqb_eq in E; subst; congruence | reflexivity].
Qed.

Lemma js_String_num_chars (x : ascii) (z : Z) :
  is_digit x = false -> x <> "-"%char -> has_char x (js_String (JNum z)) = false.
Proof.
  intros Hx Hm. unfold js_String.
  destruct (pos_digits_shape (S (N.size_nat (Z.abs_N z))) (Z.abs_N z) "") as [d [Hd [Ha _]]].
  rewrite Hd, str_app_nil_r.
  assert (Hdx : has_char x d = false) by exact (all_digits_no_char x d Hx Ha).
  destruct (z <? 0)%Z; [|exact Hdx].
  change ("-" ++ d) with (String "-" d). cbn [has_char]. rewrite Hdx, orb_false_r.
  destruct (Ascii.eqb "-" x) eqn:E; [apply Ascii.eqb_eq in E; subst; contradiction | reflexivity].
Qed.

(** X18: an apply_patch request whose [patch] field is absent, null, a
    boolean or an integer of magnitude below 2^53 is answered with [Patch
    missing *** Begin Patch] and changes nothing: [String(patch || "")]
    then has no [*] at all. Objects, arrays and other numbers are not
    covered. *)
Theorem X18_non_string_patch_rejected (cwd root : string) (patch : jsval) (s : FS) :
  match patch with JStr _ => False | JNum z => (Z.abs z < 2 ^ 53)%Z | _ => True end ->
  apply_patch_request cwd root patch s = (RespErr msg_missing_begin, s).
Proof.
  intros Hns.
  assert (Hc : has_char "*" (patch_text patch) = false /\ has_char ch_cr (patch_text patch) = false).
  { unfold patch_text. destruct patch as [| |b|z|t]; try contradiction; simpl truthy.
    - split; reflexivity.
    - split; reflexivity.
    - destruct b; split; reflexivity.
    - destruct (negb (z =? 0)%Z); [|split; reflexivity].
      split; apply js_String_num_chars; (reflexivity || discriminate). }
  destruct Hc as [Hstar Hcr].
  unfold apply_patch_request. fold (patch_text patch).
  unfold parseSimplifiedPatch. rewrite replace_crlf_id by exact Hcr.
  assert (Hb : has_begin_marker (split_nl (patch_text patch)) = false).
  { pose proof (split_on_first_no_char "*" ch_nl (patch_text patch) Hstar) as Hf.
    unfold has_begin_marker, split_nl. destruct (split_on ch_nl (patch_text patch)) as [|l rest];
      [reflexivity|]. apply includes_no_char. exact Hf. }
  cbv zeta. rewrite Hb. reflexivity.
Qed.

Lemma X18_non_string_patch_rejected_witness :
  apply_patch_request "/cwd" "/ws" (JNum (-42)) ws_fs = (RespErr msg_missing_begin, ws_fs).
Proof. apply X18_non_string_patch_rejected. vm_compute. reflexivity. Defined.

(* ================================================================= *)
(** ** Re-sending an Add *)

Lemma seq_inr_inv (m k : M unit) (s s2 : FS) :
  bind m (fun _ => k) s = (inr tt, s2) -> exists s1, m s = (inr tt, s1) /\ k s1 = (inr tt, s2).
Proof.
  unfold bind. destruct (m s) as [[e|[]] s1]; [discriminate|]. intros H. exists s1. split; [reflexivity | exact H].
Qed.

Lemma fs_writeFile_inr (p c : string) (s s' : FS) :
  fs_writeFile p c s = (inr tt, s') -> (p ∉ fs_dirs s) /\ fs_dirs s' = fs_dirs s.
Proof.
  unfold fs_writeFile.
  destruct (decide (p ∈ fs_dirs s)); [discriminate|].
  destruct (decide (dirname p ∉ fs_dirs s)); [discriminate|].
  destruct (decide (p ∈ fs_denied s)); [discriminate|].
  intros H; injection H as <-. split; [assumption | reflexivity].
Qed.

(** X19: sending the same Add request a second time gives the same answer
    and leaves the filesystem exactly as the first one left it (under the
    conditions of X15 for the first request). *)
Theorem X19_add_request_idempotent (cwd root : string) (patch : jsval) (p : parsed_patch)
    (abs : string) (s : FS) :
  is_abs cwd = true -> "/" ∈ fs_dirs s ->
  parseSimplifiedPatch (patch_text patch) = inr p -> pp_op p = OpAdd ->
  withinRoot cwd root (pp_path p) = inr abs ->
  Forall (fun a => fs_files s !! a = None) (ancestors (dirname abs)) ->
  abs ∉ fs_dirs s -> abs ∉ fs_denied s ->
  apply_patch_request cwd root patch (snd (apply_patch_request cwd root patch s))
  = apply_patch_request cwd root patch s.
Proof.
  intros Hc Hroot Hp Hop Hw Hanc Hd Hden.
  set (c := add_content (split_nl (replace_crlf (patch_text patch)))).
  set (A := list_to_set (ancestors (dirname abs)) : gset string).
  assert (Habs1 : abs ∉ A ∪ fs_dirs s).
  { destruct (withinRoot_inr cwd root (pp_path p) abs Hw) as [rel Habs]. subst abs.
    destruct (mkdir_write_resolved cwd [resolve cwd [root]; rel] c s Hc Hroot Hanc Hd Hden)
      as [_ Hrun].
    destruct (seq_inr_inv _ _ _ _ Hrun) as [s1 [_ Hwr]].
    destruct (fs_writeFile_inr _ _ _ _ Hwr) as [Hn Heq].
    cbn [fs_dirs] in Heq. rewrite <- Heq in Hn. exact Hn. }
  rewrite (add_request_effect cwd root patch p abs s Hc Hroot Hp Hop Hw Hanc Hd Hden). simpl snd.
  rewrite (add_request_effect cwd root patch p abs
             (mk_fs (<[abs := c]> (fs_files s)) (A ∪ fs_dirs s) (fs_denied s)));
    cbn [fs_files fs_dirs fs_denied]; try assumption.
  - f_equal. f_equal; [apply insert_insert_eq | set_solver].
  - set_solver.
  - rewrite List.Forall_forall in *. intros a Ha.
    assert (Hne : abs <> a).
    { intros ->. apply Habs1. apply elem_of_union_l, elem_of_list_to_set, list_elem_of_In. exact Ha. }
    rewrite lookup_insert_ne by exact Hne. exact (Hanc a Ha).
Qed.

Lemma X19_add_request_idempotent_witness :
  apply_patch_request "/cwd" "/ws" (JStr add_nested_patch)
    (snd (apply_patch_request "/cwd" "/ws" (JStr add_nested_patch) ws_fs))
  = apply_patch_request "/cwd" "/ws" (JStr add_nested_patch) ws_fs.
Proof.
  apply (X19_add_request_idempotent "/cwd" "/ws" (JStr add_nested_patch)
           (mk_patch OpAdd "new/dir/b.txt" (Some (add_content (split_nl (replace_crlf add_nested_patch)))) [])
           "/ws/new/dir/b.txt" ws_fs).
  - reflexivity.
  - unfold ws_fs. simpl. set_solver.
  - vm_compute. reflexivity.
  - reflexivity.
  - vm_compute. reflexivity.
  - vm_compute. repeat constructor.
  - unfold ws_fs. simpl. set_solver.
  - unfold ws_fs. simpl. set_solver.
Defined.
